(** * audio_player: concatenation with gaps, position index, playback session

    A shallow embedding of [src/audio_player.py].

    Modelling conventions.
    - Seconds (positions, offsets, wall-clock readings) are Python floats in
      the source; here they are exact rationals [Q], compared with [==].
    - A pydub [AudioSegment] is observed by the source only through [len()],
      which counts milliseconds, through [+] and through [silent]; it is
      modelled at that resolution, as the list of its samples, one per
      millisecond.
    - [AudioSegment.from_wav] reads the file system: it is a parameter
      [from_wav : string -> option AudioSegment], [None] when pydub raises.
    - The widgets of ipywidgets are records of the traits the source reads
      and writes; the slider keeps its value within [min, max] and notifies
      its observer when the value changes, as a bounded traitlet does.
    - What the code sends to the outside (simpleaudio, IPython display,
      print, threads) is appended to the [log] of the player. *)

From Stdlib Require Import ZArith QArith Qminmax Bool List String Ascii.
From Stdlib Require Import DecimalString Sorted Permutation.
From Stdlib Require Import Lia Lqa.
Import ListNotations.
Open Scope string_scope.
Open Scope Q_scope.

(** ** Errors *)

Inductive exn : Type :=
| ValueError (msg : string)
| DecodeError (path : string)
| AttributeError (attr : string).

Inductive result (A : Type) : Type :=
| Ok (a : A)
| Raise (e : exn).
Arguments Ok {A} a.
Arguments Raise {A} e.

(** ** Paths *)

Module Path.

Definition is_sep (c : ascii) : bool := Ascii.eqb c "/".

Fixpoint has_sep (p : string) : bool :=
  match p with
  | EmptyString => false
  | String c rest => is_sep c || has_sep rest
  end.

(** [os.path.basename]: what follows the last separator. *)
Fixpoint basename (p : string) : string :=
  match p with
  | EmptyString => EmptyString
  | String c rest =>
      if is_sep c || has_sep rest then basename rest else p
  end.

Fixpoint ends_with_sep (p : string) : bool :=
  match p with
  | EmptyString => false
  | String c EmptyString => is_sep c
  | String _ rest => ends_with_sep rest
  end.

(** [os.path.join] on two components. *)
Definition join (folder file : string) : string :=
  match file with
  | String c _ =>
      if is_sep c then file
      else if (folder =? "")%string || ends_with_sep folder
           then folder ++ file
           else folder ++ "/" ++ file
  | EmptyString =>
      if (folder =? "")%string || ends_with_sep folder
      then folder else folder ++ "/"
  end.

End Path.

(** ** Strings: [lower], [endswith], [sorted] *)

Definition lower_ascii (c : ascii) : ascii :=
  let n := nat_of_ascii c in
  if (65 <=? n)%nat && (n <=? 90)%nat then ascii_of_nat (n + 32) else c.

Fixpoint lower (s : string) : string :=
  match s with
  | EmptyString => EmptyString
  | String c rest => String (lower_ascii c) (lower rest)
  end.

Definition endswith (s suffix : string) : bool :=
  let n := String.length s in
  let k := String.length suffix in
  (k <=? n)%nat && (substring (n - k) k s =? suffix)%string.

Fixpoint insert_sorted (x : string) (l : list string) : list string :=
  match l with
  | [] => [x]
  | y :: l' => if String.leb x y then x :: l else y :: insert_sorted x l'
  end.

Definition sorted (l : list string) : list string :=
  fold_right insert_sorted [] l.

(** ** get_wav_files

    [listing] is what [os.listdir(folder)] returns. *)

Definition get_wav_files (listing : list string) (folder : string)
  : list string :=
  sorted
    (map (Path.join folder)
         (filter (fun file => endswith (lower file) ".wav") listing)).

(** ** AudioSegment *)

Definition AudioSegment : Type := list Z.

Module AudioSegment.

Definition empty : AudioSegment := [].

(** [AudioSegment.silent(duration=d)]: [d] milliseconds of zero samples;
    pydub multiplies a zero frame by the frame count, which yields the empty
    segment when the count is not positive. *)
Definition silent (duration : Z) : AudioSegment :=
  repeat 0%Z (Z.to_nat duration).

(** [a + b] *)
Definition add (a b : AudioSegment) : AudioSegment := (a ++ b)%list.

(** [len(a)], in milliseconds *)
Definition len (a : AudioSegment) : Z := Z.of_nat (List.length a).

End AudioSegment.

(** [len(a) / 1000.0] *)
Definition seconds (a : AudioSegment) : Q := AudioSegment.len a # 1000.

(** ** combine_wav_files *)

Record file_info : Type := mk_file_info {
  file : string;
  start : Q;
  (** the source stores [None] here and overwrites it in the same iteration,
      before anything can read it *)
  end_ : Q
}.

Definition no_wav_files_msg : string := "WAVファイルが見つかりません。".

(** The body of [for wav_file in wav_files], with the loop's variables
    [combined], [file_positions] and [current_position] threaded through.
    [last_file] is [wav_files[-1]]. *)
Fixpoint combine_loop (from_wav : string -> option AudioSegment)
    (last_file : string) (gap_seconds : Z) (silence : AudioSegment)
    (todo : list string)
    (combined : AudioSegment) (file_positions : list file_info)
    (current_position : Q)
  : result (AudioSegment * list file_info) :=
  match todo with
  | [] => Ok (combined, file_positions)
  | wav_file :: rest =>
      match from_wav wav_file with
      | None => Raise (DecodeError wav_file)
      | Some audio =>
          let combined := AudioSegment.add combined audio in
          let entry :=
            {| file := Path.basename wav_file;
               start := current_position;
               end_ := seconds combined |} in
          let file_positions := (file_positions ++ [entry])%list in
          let current_position := seconds combined in
          if negb (wav_file =? last_file)%string then
            combine_loop from_wav last_file gap_seconds silence rest
              (AudioSegment.add combined silence) file_positions
              (current_position + inject_Z gap_seconds)
          else
            combine_loop from_wav last_file gap_seconds silence rest
              combined file_positions current_position
      end
  end.

Definition combine_wav_files (from_wav : string -> option AudioSegment)
    (wav_files : list string) (gap_seconds : Z)
  : result (AudioSegment * list file_info) :=
  match wav_files with
  | [] => Raise (ValueError no_wav_files_msg)
  | _ :: _ =>
      let silence := AudioSegment.silent (gap_seconds * 1000) in
      combine_loop from_wav (last wav_files "") gap_seconds silence
        wav_files AudioSegment.empty [] 0
  end.

(** ** get_current_file *)

Definition unknown_file : string := "不明なファイル".

(** [start <= position < end] *)
Definition within (file_info : file_info) (position : Q) : bool :=
  Qle_bool (start file_info) position
  && negb (Qle_bool (end_ file_info) position).

Fixpoint get_current_file_in (file_positions : list file_info) (position : Q)
  : string :=
  match file_positions with
  | [] => unknown_file
  | file_info :: rest =>
      if within file_info position then file file_info
      else get_current_file_in rest position
  end.

(** ** The collaborators of the player: wave, simpleaudio, widgets *)

(** The WAV file at [output_path], as the [wave] module reads it. *)
Record WavFile : Type := mk_WavFile {
  framerate : Z;
  nchannels : Z;
  sampwidth : Z;
  frames : list Z
}.

(** [combined_audio.export(output_path, format="wav")]: at the resolution of
    the model a frame is a millisecond. *)
Definition save_combined_audio (combined_audio : AudioSegment) : WavFile :=
  {| framerate := 1000; nchannels := 1; sampwidth := 2;
     frames := combined_audio |}.

(** [sa.WaveObject(frames, n_channels, sample_width, frame_rate)] *)
Record WaveObject : Type := mk_WaveObject {
  audio_data : list Z;
  num_channels : Z;
  bytes_per_sample : Z;
  sample_rate : Z
}.

Module Button.
Record t : Type := mk { description : string; icon : string }.
End Button.

Module Label.
Record t : Type := mk { value : string }.
End Label.

Module Slider.
Record t : Type := mk { value : Q; min : Q; max : Q }.

(** The validator of a bounded float trait: a proposed value outside
    [min, max] is replaced by [min(max(value, min), max)]. *)
Definition validate (sl : t) (v : Q) : Q :=
  if negb (Qle_bool (min sl) v) || negb (Qle_bool v (max sl))
  then Qmin (Qmax v (min sl)) (max sl)
  else v.

Definition with_value (v : Q) (sl : t) : t :=
  {| value := v; min := min sl; max := max sl |}.
End Slider.

(** What the player does to the outside world, in order. *)
Inductive event : Type :=
| Printed (msg : string)
| SaPlay (wav_obj : WaveObject)        (* wav_obj.play() *)
| SaStop (play_obj : WaveObject)       (* play_obj.stop() *)
| ThreadStart                          (* progress_thread.start() *)
| DisplayAudio (path : WavFile) (autoplay : bool).
                                       (* display(Audio(path, autoplay=..)) *)

(** ** AudioPlayer

    The attributes of a fully constructed player. [start_position] and
    [start_time] do not exist before the first [play()]; nothing reads them
    before, and they are 0 here until then. [progress_thread] is [None], or
    [Some alive]. The stop button and [temp_file] hold nothing the methods
    read, and are left out. *)

Record AudioPlayer : Type := mk_AudioPlayer {
  wav_files : list string;
  combined_audio : AudioSegment;
  file_positions : list file_info;
  output_path : WavFile;
  playing : bool;
  play_obj : option WaveObject;
  current_position : Q;
  current_file_name : string;
  start_position : Q;
  start_time : Q;
  play_button : Button.t;
  position_slider : Slider.t;
  file_label : Label.t;
  progress_thread : option bool;
  log : list event
}.

(** [self.x = ...] *)

Definition set_playing (x : bool) (self : AudioPlayer) : AudioPlayer :=
  {| wav_files := wav_files self;
     combined_audio := combined_audio self;
     file_positions := file_positions self;
     output_path := output_path self;
     playing := x;
     play_obj := play_obj self;
     current_position := current_position self;
     current_file_name := current_file_name self;
     start_position := start_position self;
     start_time := start_time self;
     play_button := play_button self;
     position_slider := position_slider self;
     file_label := file_label self;
     progress_thread := progress_thread self;
     log := log self |}.

Definition set_play_obj (x : option WaveObject) (self : AudioPlayer) : AudioPlayer :=
  {| wav_files := wav_files self;
     combined_audio := combined_audio self;
     file_positions := file_positions self;
     output_path := output_path self;
     playing := playing self;
     play_obj := x;
     current_position := current_position self;
     current_file_name := current_file_name self;
     start_position := start_position self;
     start_time := start_time self;
     play_button := play_button self;
     position_slider := position_slider self;
     file_label := file_label self;
     progress_thread := progress_thread self;
     log := log self |}.

Definition set_current_position (x : Q) (self : AudioPlayer) : AudioPlayer :=
  {| wav_files := wav_files self;
     combined_audio := combined_audio self;
     file_positions := file_positions self;
     output_path := output_path self;
     playing := playing self;
     play_obj := play_obj self;
     current_position := x;
     current_file_name := current_file_name self;
     start_position := start_position self;
     start_time := start_time self;
     play_button := play_button self;
     position_slider := position_slider self;
     file_label := file_label self;
     progress_thread := progress_thread self;
     log := log self |}.

Definition set_current_file_name (x : string) (self : AudioPlayer) : AudioPlayer :=
  {| wav_files := wav_files self;
     combined_audio := combined_audio self;
     file_positions := file_positions self;
     output_path := output_path self;
     playing := playing self;
     play_obj := play_obj self;
     current_position := current_position self;
     current_file_name := x;
     start_position := start_position self;
     start_time := start_time self;
     play_button := play_button self;
     position_slider := position_slider self;
     file_label := file_label self;
     progress_thread := progress_thread self;
     log := log self |}.

Definition set_start_position (x : Q) (self : AudioPlayer) : AudioPlayer :=
  {| wav_files := wav_files self;
     combined_audio := combined_audio self;
     file_positions := file_positions self;
     output_path := output_path self;
     playing := playing self;
     play_obj := play_obj self;
     current_position := current_position self;
     current_file_name := current_file_name self;
     start_position := x;
     start_time := start_time self;
     play_button := play_button self;
     position_slider := position_slider self;
     file_label := file_label self;
     progress_thread := progress_thread self;
     log := log self |}.

Definition set_start_time (x : Q) (self : AudioPlayer) : AudioPlayer :=
  {| wav_files := wav_files self;
     combined_audio := combined_audio self;
     file_positions := file_positions self;
     output_path := output_path self;
     playing := playing self;
     play_obj := play_obj self;
     current_position := current_position self;
     current_file_name := current_file_name self;
     start_position := start_position self;
     start_time := x;
     play_button := play_button self;
     position_slider := position_slider self;
     file_label := file_label self;
     progress_thread := progress_thread self;
     log := log self |}.

Definition set_play_button (x : Button.t) (self : AudioPlayer) : AudioPlayer :=
  {| wav_files := wav_files self;
     combined_audio := combined_audio self;
     file_positions := file_positions self;
     output_path := output_path self;
     playing := playing self;
     play_obj := play_obj self;
     current_position := current_position self;
     current_file_name := current_file_name self;
     start_position := start_position self;
     start_time := start_time self;
     play_button := x;
     position_slider := position_slider self;
     file_label := file_label self;
     progress_thread := progress_thread self;
     log := log self |}.

Definition set_position_slider (x : Slider.t) (self : AudioPlayer) : AudioPlayer :=
  {| wav_files := wav_files self;
     combined_audio := combined_audio self;
     file_positions := file_positions self;
     output_path := output_path self;
     playing := playing self;
     play_obj := play_obj self;
     current_position := current_position self;
     current_file_name := current_file_name self;
     start_position := start_position self;
     start_time := start_time self;
     play_button := play_button self;
     position_slider := x;
     file_label := file_label self;
     progress_thread := progress_thread self;
     log := log self |}.

Definition set_file_label (x : Label.t) (self : AudioPlayer) : AudioPlayer :=
  {| wav_files := wav_files self;
     combined_audio := combined_audio self;
     file_positions := file_positions self;
     output_path := output_path self;
     playing := playing self;
     play_obj := play_obj self;
     current_position := current_position self;
     current_file_name := current_file_name self;
     start_position := start_position self;
     start_time := start_time self;
     play_button := play_button self;
     position_slider := position_slider self;
     file_label := x;
     progress_thread := progress_thread self;
     log := log self |}.

Definition set_progress_thread (x : option bool) (self : AudioPlayer) : AudioPlayer :=
  {| wav_files := wav_files self;
     combined_audio := combined_audio self;
     file_positions := file_positions self;
     output_path := output_path self;
     playing := playing self;
     play_obj := play_obj self;
     current_position := current_position self;
     current_file_name := current_file_name self;
     start_position := start_position self;
     start_time := start_time self;
     play_button := play_button self;
     position_slider := position_slider self;
     file_label := file_label self;
     progress_thread := x;
     log := log self |}.

Definition set_log (x : list event) (self : AudioPlayer) : AudioPlayer :=
  {| wav_files := wav_files self;
     combined_audio := combined_audio self;
     file_positions := file_positions self;
     output_path := output_path self;
     playing := playing self;
     play_obj := play_obj self;
     current_position := current_position self;
     current_file_name := current_file_name self;
     start_position := start_position self;
     start_time := start_time self;
     play_button := play_button self;
     position_slider := position_slider self;
     file_label := file_label self;
     progress_thread := progress_thread self;
     log := x |}.

Definition emit (e : event) (self : AudioPlayer) : AudioPlayer :=
  set_log (log self ++ [e])%list self.

(** [int(x)] on a float: truncation towards zero. *)
Definition int (x : Q) : Z := Z.quot (Qnum x) (Zpos (Qden x)).

(** [len(self.combined_audio) / 1000.0] *)
Definition total_duration (self : AudioPlayer) : Q :=
  seconds (combined_audio self).

Definition get_current_file (self : AudioPlayer) (position : Q) : string :=
  get_current_file_in (file_positions self) position.

(** ** The methods of AudioPlayer

    [HAVE_SIMPLEAUDIO] is the module-level flag set by the import attempt.
    A method that calls [time.time()] takes the reading as [now]. *)

Section Methods.

Variable HAVE_SIMPLEAUDIO : bool.

Definition playback_error_msg : string := "再生エラー: position not in range".

Definition degraded_msg : string :=
  "SimpleAudioがインストールされていないため、再生位置の制御が制限されます".

(** [wave]'s [setpos] raises unless [0 <= start_frame <= getnframes()]; the
    [except] clause prints and returns [None]. *)
Definition _create_wav_obj_from_position (position_seconds : Q)
    (self : AudioPlayer) : option WaveObject * AudioPlayer :=
  let wav_file := output_path self in
  let frame_rate := framerate wav_file in
  let n_channels := nchannels wav_file in
  let sample_width := sampwidth wav_file in
  let start_frame := int (position_seconds * inject_Z frame_rate) in
  let nframes := Z.of_nat (List.length (frames wav_file)) in
  if (start_frame <? 0)%Z || (nframes <? start_frame)%Z then
    (None, emit (Printed playback_error_msg) self)
  else
    let frames := skipn (Z.to_nat start_frame) (frames wav_file) in
    (Some {| audio_data := frames; num_channels := n_channels;
             bytes_per_sample := sample_width; sample_rate := frame_rate |},
     self).

Definition pause (self : AudioPlayer) : AudioPlayer :=
  if negb (playing self) then self
  else
    let self := set_playing false self in
    let self :=
      set_play_button {| Button.description := "再生"; Button.icon := "play" |}
        self in
    if HAVE_SIMPLEAUDIO then
      match play_obj self with
      | Some po => emit (SaStop po) self
      | None => self
      end
    else self.

Definition play (now : Q) (self : AudioPlayer) : AudioPlayer :=
  if playing self then self
  else
    let self := set_playing true self in
    let self :=
      set_play_button
        {| Button.description := "一時停止"; Button.icon := "pause" |} self in
    let self := set_start_position (Slider.value (position_slider self)) self in
    let self := set_start_time now self in
    if HAVE_SIMPLEAUDIO then
      let (wav_obj, self) :=
        _create_wav_obj_from_position (start_position self) self in
      match wav_obj with
      | Some wav_obj =>
          let self := emit (SaPlay wav_obj) (set_play_obj (Some wav_obj) self) in
          match progress_thread self with
          | Some true => self
          | _ => emit ThreadStart (set_progress_thread (Some true) self)
          end
      | None => self
      end
    else
      let self := set_file_label {| Label.value := degraded_msg |} self in
      emit (DisplayAudio (output_path self) true) self.

Definition toggle_play (now : Q) (self : AudioPlayer) : AudioPlayer :=
  if playing self then pause self else play now self.

(** [change['new']] is [new]. *)
Definition on_position_change (new : Q) (now : Q) (self : AudioPlayer)
  : AudioPlayer :=
  if negb (playing self) then
    let self := set_current_position new self in
    let self :=
      set_current_file_name (get_current_file self (current_position self))
        self in
    set_file_label {| Label.value := "準備完了: " ++ current_file_name self |}
      self
  else
    let self := pause self in
    let self := set_current_position new self in
    play now self.

(** [self.position_slider.value = v], from the code or from the user's drag:
    the value is validated, stored, and [on_position_change], registered with
    [observe], is called when the stored value differs from the old one. *)
Definition set_slider_value (v : Q) (now : Q) (self : AudioPlayer)
  : AudioPlayer :=
  let sl := position_slider self in
  let new := Slider.validate sl v in
  if Qeq_bool (Slider.value sl) new then self
  else on_position_change new now
         (set_position_slider (Slider.with_value new sl) self).

Definition stop (now : Q) (self : AudioPlayer) : AudioPlayer :=
  let self := pause self in
  let self := set_slider_value 0 now self in
  let self := set_current_position 0 self in
  set_file_label {| Label.value := "停止しました" |} self.

(** One round of [while self.playing] in [update_progress]. [now] is the
    reading of line 165, [now'] the one a restart through the slider's
    observer takes, [is_playing] the answer of [play_obj.is_playing()].
    The boolean tells whether the loop goes on; when it does not, the thread
    ends. *)
Definition update_progress_step (now now' : Q) (is_playing : bool)
    (self : AudioPlayer) : AudioPlayer * bool :=
  let finish self := (set_progress_thread (Some false) self, false) in
  if negb (playing self) then finish self
  else if negb HAVE_SIMPLEAUDIO then finish self
  else match play_obj self with
  | None => finish self
  | Some _ =>
      if negb is_playing then
        let self := set_playing false self in
        let self :=
          set_play_button
            {| Button.description := "再生"; Button.icon := "play" |} self in
        let self := set_file_label {| Label.value := "再生完了" |} self in
        finish self
      else
        let elapsed := now - start_time self in
        let self := set_current_position (start_position self + elapsed) self in
        let self :=
          if Qle_bool (total_duration self) (current_position self) then
            set_playing false (set_current_position (total_duration self) self)
          else self in
        let self := set_slider_value (current_position self) now' self in
        let self :=
          set_current_file_name (get_current_file self (current_position self))
            self in
        let self :=
          set_file_label
            {| Label.value := "再生中: " ++ current_file_name self |} self in
        (self, true)
  end.

(** The loop, over the readings of its successive rounds. *)
Fixpoint update_progress (rounds : list (Q * Q * bool)) (self : AudioPlayer)
  : AudioPlayer :=
  match rounds with
  | [] => self
  | (now, now', is_playing) :: rest =>
      let (self, go_on) := update_progress_step now now' is_playing self in
      if go_on then update_progress rest self else self
  end.

End Methods.

(** ** Construction *)

Definition ready_msg : string := "再生準備完了".

Definition setup_widgets (self : AudioPlayer) : AudioPlayer :=
  let self :=
    set_play_button {| Button.description := "再生"; Button.icon := "play" |}
      self in
  let self :=
    set_position_slider
      {| Slider.value := 0; Slider.min := 0;
         Slider.max := total_duration self |} self in
  let self := set_file_label {| Label.value := ready_msg |} self in
  set_progress_thread None self.

(** What [AudioPlayer(folder, gap_seconds)] leaves behind when no exception
    escapes: an object on which only [wav_files] was assigned, or a complete
    player. *)
Inductive player_object : Type :=
| OnlyWavFiles (wav_files : list string)
| Complete (player : AudioPlayer).

Definition no_files_warning : string :=
  "警告: 指定されたフォルダにWAVファイルが見つかりません".

Definition found_files_msg (n : nat) : string :=
  NilEmpty.string_of_uint (Nat.to_uint n)
  ++ "個のWAVファイルを見つけました。結合しています...".

(** Lines 91 to 103 of [__init__]: the merged audio is exported, the playback
    attributes are set and the widgets built. *)
Definition init_attributes (wav_files : list string)
    (combined_audio : AudioSegment) (file_positions : list file_info)
  : AudioPlayer :=
  let self :=
    {| wav_files := wav_files;
       combined_audio := combined_audio;
       file_positions := file_positions;
       output_path := save_combined_audio combined_audio;
       playing := false;
       play_obj := None;
       current_position := 0;
       current_file_name := "";
       start_position := 0;
       start_time := 0;
       play_button := {| Button.description := ""; Button.icon := "" |};
       position_slider :=
         {| Slider.value := 0; Slider.min := 0; Slider.max := 0 |};
       file_label := {| Label.value := "" |};
       progress_thread := None;
       log := [] |} in
  setup_widgets self.

(** [__init__]: the printed lines, and the object or the exception. *)
Definition __init__ (listing : list string)
    (from_wav : string -> option AudioSegment)
    (folder : string) (gap_seconds : Z)
  : list event * result player_object :=
  let wav_files := get_wav_files listing folder in
  match wav_files with
  | [] => ([Printed no_files_warning], Ok (OnlyWavFiles wav_files))
  | _ :: _ =>
      let out := [Printed (found_files_msg (List.length wav_files))] in
      match combine_wav_files from_wav wav_files gap_seconds with
      | Raise e => (out, Raise e)
      | Ok (combined_audio, file_positions) =>
          (out,
           Ok (Complete
                 (init_attributes wav_files combined_audio file_positions)))
      end
  end.

(** [display()] reads [self.play_button] first. *)
Definition display (obj : player_object) : result unit :=
  match obj with
  | OnlyWavFiles _ => Raise (AttributeError "play_button")
  | Complete _ => Ok tt
  end.

Definition create_audio_player (listing : list string)
    (from_wav : string -> option AudioSegment)
    (folder : string) (gap_seconds : Z)
  : list event * result player_object :=
  match __init__ listing from_wav folder gap_seconds with
  | (out, Raise e) => (out, Raise e)
  | (out, Ok player) =>
      match display player with
      | Raise e => (out, Raise e)
      | Ok _ => (out, Ok player)
      end
  end.

(** ** Notions used to state the properties *)

(** The duration, in seconds, of the audio a path decodes to. *)
Definition file_duration (from_wav : string -> option AudioSegment)
    (wav_file : string) : Q :=
  match from_wav wav_file with
  | Some audio => seconds audio
  | None => 0
  end.

Fixpoint sum_durations (from_wav : string -> option AudioSegment)
    (wav_files : list string) : Q :=
  match wav_files with
  | [] => 0
  | wav_file :: rest =>
      file_duration from_wav wav_file + sum_durations from_wav rest
  end.

Definition readable (from_wav : string -> option AudioSegment)
    (wav_file : string) : Prop :=
  from_wav wav_file <> None.

Definition nonempty_audio (from_wav : string -> option AudioSegment)
    (wav_file : string) : Prop :=
  forall audio, from_wav wav_file = Some audio -> audio <> [].

(** The test of line 69, [wav_file != wav_files[-1]]. *)
Definition differs_from_last (last_file wav_file : string) : bool :=
  negb (wav_file =? last_file)%string.

(** How many times the loop runs [combined += silence]. *)
Definition silences_appended (last_file : string) (wav_files : list string)
  : nat :=
  List.length (filter (differs_from_last last_file) wav_files).

(** The stretches of the timeline that [combined += silence] fills: one
    behind each file that passes the test of line 69, from the end of that
    file's entry, [gap_seconds] long. *)
Fixpoint gap_intervals (last_file : string) (gap_seconds : Z)
    (wav_files : list string) (file_positions : list file_info)
  : list (Q * Q) :=
  match wav_files, file_positions with
  | wav_file :: rest, entry :: entries =>
      let others := gap_intervals last_file gap_seconds rest entries in
      if differs_from_last last_file wav_file
      then (end_ entry, end_ entry + inject_Z gap_seconds) :: others
      else others
  | _, _ => []
  end.

(** Two half-open intervals that share no point. *)
Definition apart (entry : file_info) (gap : Q * Q) : Prop :=
  end_ entry <= fst gap \/ snd gap <= start entry.

(** [offset] lies in the half-open interval [gap]. *)
Definition inside (gap : Q * Q) (offset : Q) : Prop :=
  fst gap <= offset /\ offset < snd gap.

(** The part of the state the specification calls PlaybackState. *)
Definition playback_state (self : AudioPlayer)
  : bool * Q * Q * Q * option WaveObject :=
  (playing self, current_position self, start_position self,
   start_time self, play_obj self).

(** What holds of every player [__init__] builds and the methods keep. *)
Record well_formed (self : AudioPlayer) : Prop := {
  wf_output : output_path self = save_combined_audio (combined_audio self);
  wf_min : Slider.min (position_slider self) = 0;
  wf_max : Slider.max (position_slider self) = total_duration self;
  wf_value : 0 <= Slider.value (position_slider self)
             /\ Slider.value (position_slider self) <= total_duration self;
  wf_start : 0 <= start_position self
}.

Definition is_print (e : event) : bool :=
  match e with Printed _ => true | _ => false end.

(** ** Concrete inputs *)

Definition tone (ms : nat) : AudioSegment := repeat 1%Z ms.

Definition fs3 (path : string) : option AudioSegment :=
  if (path =? "outputs/a.wav")%string then Some (tone 2000)
  else if (path =? "outputs/b.wav")%string then Some (tone 3500)
  else if (path =? "outputs/c.wav")%string then Some (tone 1000)
  else None.

Definition abc : list string :=
  ["outputs/a.wav"; "outputs/b.wav"; "outputs/c.wav"].

Definition ab : list string := ["outputs/a.wav"; "outputs/b.wav"].

(** The path of the last file also stands first. *)
Definition aba : list string :=
  ["outputs/a.wav"; "outputs/b.wav"; "outputs/a.wav"].

(** The player of the scenario: the folder holds a.wav, b.wav and c.wav. *)
Definition listing3 : list string := ["b.wav"; "a.wav"; "c.wav"].

Definition combined_of (r : result (AudioSegment * list file_info))
  : AudioSegment :=
  match r with Ok (c, _) => c | Raise _ => [] end.

Definition positions_of (r : result (AudioSegment * list file_info))
  : list file_info :=
  match r with Ok (_, p) => p | Raise _ => [] end.

Definition duration_of (r : result (AudioSegment * list file_info)) : Q :=
  match r with Ok (c, _) => seconds c | Raise _ => 0 end.

Definition player3 : AudioPlayer :=
  let r := combine_wav_files fs3 abc 3 in
  init_attributes abc (combined_of r) (positions_of r).

(** The same player after [play()] at time 0, with simpleaudio. *)
Definition playing3 : AudioPlayer := play true 0 player3.

(** And without simpleaudio. *)
Definition degraded3 : AudioPlayer := play false 0 player3.

(** ** The session driven from outside

    What the user interface and the poller thread do to a player: the
    methods bound to the buttons and to the slider, the methods themselves,
    and the rounds of [update_progress], each one run to its end before the
    next begins. *)
Inductive action : Type :=
| Toggle (now : Q)                          (* toggle_play, the play button *)
| Play (now : Q)                            (* play() *)
| Pause                                     (* pause() *)
| Stop (now : Q)                            (* stop(), the stop button *)
| Drag (v now : Q)                          (* the slider is set to v *)
| Round (now now' : Q) (is_playing : bool). (* one round of update_progress *)

Definition perform (HAVE_SIMPLEAUDIO : bool) (a : action)
    (self : AudioPlayer) : AudioPlayer :=
  match a with
  | Toggle now => toggle_play HAVE_SIMPLEAUDIO now self
  | Play now => play HAVE_SIMPLEAUDIO now self
  | Pause => pause HAVE_SIMPLEAUDIO self
  | Stop now => stop HAVE_SIMPLEAUDIO now self
  | Drag v now => set_slider_value HAVE_SIMPLEAUDIO v now self
  | Round now now' is_playing =>
      fst (update_progress_step HAVE_SIMPLEAUDIO now now' is_playing self)
  end.

Definition perform_all (HAVE_SIMPLEAUDIO : bool) (actions : list action)
    (self : AudioPlayer) : AudioPlayer :=
  fold_left (fun self a => perform HAVE_SIMPLEAUDIO a self) actions self.

(** [wav_file] does not decode. *)
Definition unreadable (from_wav : string -> option AudioSegment)
    (wav_file : string) : bool :=
  match from_wav wav_file with
  | Some _ => false
  | None => true
  end.

(** A name as [os.listdir] gives it: no separator in it. *)
Definition bare_name (file : string) : Prop := Path.has_sep file = false.

(** The frame at which [wave] is positioned for [position_seconds]. *)
Definition start_frame_of (self : AudioPlayer) (position_seconds : Q) : Z :=
  int (position_seconds * inject_Z (framerate (output_path self))).

(** What every method keeps of a player: it stays well formed, its merged
    audio, its index and its exported file stay the same, and nothing more
    is printed. *)
Definition kept (self self' : AudioPlayer) : Prop :=
  well_formed self'
  /\ combined_audio self' = combined_audio self
  /\ file_positions self' = file_positions self
  /\ output_path self' = output_path self
  /\ filter is_print (log self') = filter is_print (log self).

(** A player whose slider was given a range beyond the exported file. *)
Definition beyond3 : AudioPlayer :=
  set_position_slider
    {| Slider.value := 20; Slider.min := 0; Slider.max := 30 |} player3.

(** * Properties *)

(** ** The scenario of the specification: 2.0 s, 3.5 s and 1.0 s, gap 3 s *)

Example get_wav_files_ex :
  get_wav_files ["b.wav"; "notes.txt"; "c.WAV"; "a.wav"] "outputs"
  = ["outputs/a.wav"; "outputs/b.wav"; "outputs/c.WAV"].
Proof. reflexivity. Qed.

Example combine_ex_positions :
  positions_of (combine_wav_files fs3 abc 3)
  = [ {| file := "a.wav"; start := 0; end_ := 2000 # 1000 |};
      {| file := "b.wav"; start := (2000 # 1000) + inject_Z 3;
         end_ := 8500 # 1000 |};
      {| file := "c.wav"; start := (8500 # 1000) + inject_Z 3;
         end_ := 12500 # 1000 |} ].
Proof. vm_compute. reflexivity. Qed.

Example combine_ex_duration :
  duration_of (combine_wav_files fs3 abc 3) == 12.5.
Proof. vm_compute. reflexivity. Qed.

Example resolve_ex :
  let index := positions_of (combine_wav_files fs3 abc 3) in
  get_current_file_in index 1 = "a.wav"
  /\ get_current_file_in index 3 = unknown_file
  /\ get_current_file_in index 6.5 = "b.wav".
Proof. vm_compute. repeat split. Qed.

(** ** Seconds and segments *)

Lemma seconds_add (a b : AudioSegment) :
  seconds (AudioSegment.add a b) == seconds a + seconds b.
Proof.
  unfold seconds, AudioSegment.add, AudioSegment.len.
  rewrite length_app, Nat2Z.inj_add.
  unfold Qeq, Qplus; simpl. lia.
Qed.

Lemma seconds_nonneg (a : AudioSegment) : 0 <= seconds a.
Proof.
  unfold seconds, AudioSegment.len, Qle; simpl. lia.
Qed.

Lemma seconds_pos (a : AudioSegment) : a <> [] -> 0 < seconds a.
Proof.
  destruct a as [|x a]; [congruence|]. intros _.
  unfold seconds, AudioSegment.len, Qlt; simpl. lia.
Qed.

Lemma seconds_silent (gap_seconds : Z) :
  (0 <= gap_seconds)%Z ->
  seconds (AudioSegment.silent (gap_seconds * 1000)) == inject_Z gap_seconds.
Proof.
  intros Hgap.
  unfold seconds, AudioSegment.silent, AudioSegment.len.
  rewrite repeat_length, Z2Nat.id by lia.
  unfold Qeq, inject_Z; simpl. lia.
Qed.

Lemma silent_negative (gap_seconds : Z) :
  (gap_seconds <= 0)%Z ->
  AudioSegment.silent (gap_seconds * 1000) = AudioSegment.empty.
Proof.
  intros Hgap. unfold AudioSegment.silent.
  replace (Z.to_nat (gap_seconds * 1000)) with 0%nat by lia. reflexivity.
Qed.

(** ** The loop of combine_wav_files *)

Section Loop.

Variable from_wav : string -> option AudioSegment.
Variable last_file : string.
Variable gap_seconds : Z.
Variable silence : AudioSegment.

Abbreviation loop := (combine_loop from_wav last_file gap_seconds silence).

(** The entries already recorded are never touched again. *)
Lemma combine_loop_acc (todo : list string) :
  forall combined file_positions current_position,
    loop todo combined file_positions current_position
    = match loop todo combined [] current_position with
      | Ok (c, new) => Ok (c, (file_positions ++ new)%list)
      | Raise e => Raise e
      end.
Proof.
  induction todo as [|wav_file rest IH]; intros combined ps cur; simpl.
  - now rewrite app_nil_r.
  - destruct (from_wav wav_file) as [audio|]; [|reflexivity].
    destruct (negb (wav_file =? last_file)%string);
      rewrite IH; symmetry; rewrite IH; symmetry;
      match goal with
      | |- context [combine_loop _ _ _ _ rest ?c [] ?p] =>
          destruct (combine_loop from_wav last_file gap_seconds silence
                      rest c [] p) as [[c' new]|e]
      end; try reflexivity; now rewrite <- app_assoc.
Qed.

(** One round of the loop, started with no entry recorded. *)
Lemma combine_loop_cons (wav_file : string) (rest : list string)
    (combined : AudioSegment) (current_position : Q) :
  loop (wav_file :: rest) combined [] current_position
  = match from_wav wav_file with
    | None => Raise (DecodeError wav_file)
    | Some audio =>
        let c1 := AudioSegment.add combined audio in
        let entry :=
          {| file := Path.basename wav_file; start := current_position;
             end_ := seconds c1 |} in
        match
          (if differs_from_last last_file wav_file
           then loop rest (AudioSegment.add c1 silence) []
                  (seconds c1 + inject_Z gap_seconds)
           else loop rest c1 [] (seconds c1))
        with
        | Ok (c, new) => Ok (c, entry :: new)
        | Raise e => Raise e
        end
    end.
Proof.
  simpl. destruct (from_wav wav_file) as [audio|]; [|reflexivity].
  unfold differs_from_last.
  destruct (negb (wav_file =? last_file)%string); rewrite combine_loop_acc;
    reflexivity.
Qed.

(** The loop ends normally when every file decodes. *)
Lemma combine_loop_total (todo : list string) :
  Forall (readable from_wav) todo ->
  forall combined current_position,
    exists c new, loop todo combined [] current_position = Ok (c, new).
Proof.
  induction 1 as [|wav_file rest Hr _ IH]; intros combined cur.
  - simpl. eauto.
  - rewrite combine_loop_cons.
    destruct (from_wav wav_file) as [audio|] eqn:E; [|now elim Hr].
    cbv zeta.
    destruct (differs_from_last last_file wav_file);
      match goal with
      | |- context [combine_loop _ _ _ _ rest ?c [] ?p] =>
          destruct (IH c p) as (c' & new & ->)
      end; eauto.
Qed.

(** One entry per file, in order, named after the file. *)
Lemma combine_loop_files (todo : list string) :
  forall combined current_position c new,
    loop todo combined [] current_position = Ok (c, new) ->
    map file new = map Path.basename todo.
Proof.
  induction todo as [|wav_file rest IH]; intros combined cur c new.
  - simpl. intros [= <- <-]. reflexivity.
  - rewrite combine_loop_cons.
    destruct (from_wav wav_file) as [audio|]; [|discriminate].
    cbv zeta.
    destruct (differs_from_last last_file wav_file);
      match goal with
      | |- context [combine_loop _ _ _ _ rest ?c0 [] ?p] =>
          destruct (combine_loop from_wav last_file gap_seconds silence
                      rest c0 [] p) as [[c' new']|e] eqn:E
      end; try discriminate; intros [= <- <-]; simpl; f_equal; eauto.
Qed.

(** The length of the merged audio: what was there, every file, and the
    silence as many times as line 69 let it through. *)
Lemma combine_loop_seconds (todo : list string) :
  forall combined current_position c new,
    loop todo combined [] current_position = Ok (c, new) ->
    seconds c
    == seconds combined + sum_durations from_wav todo
       + seconds silence
         * inject_Z (Z.of_nat (silences_appended last_file todo)).
Proof.
  induction todo as [|wav_file rest IH]; intros combined cur c new.
  - simpl. intros [= <- <-]. unfold silences_appended; simpl.
    unfold inject_Z. ring.
  - rewrite combine_loop_cons. unfold silences_appended. simpl.
    unfold file_duration.
    destruct (from_wav wav_file) as [audio|]; [|discriminate].
    cbv zeta.
    destruct (differs_from_last last_file wav_file);
      match goal with
      | |- context [combine_loop _ _ _ _ rest ?c0 [] ?p] =>
          destruct (combine_loop from_wav last_file gap_seconds silence
                      rest c0 [] p) as [[c' new']|e] eqn:E
      end; try discriminate; intros [= <- <-];
      apply IH in E; rewrite E; rewrite ?seconds_add;
      fold (silences_appended last_file rest).
    + simpl List.length. rewrite Nat2Z.inj_succ. unfold Z.succ.
      rewrite inject_Z_plus. change (inject_Z 1) with 1.
      unfold silences_appended. ring.
    + unfold silences_appended. ring.
Qed.

End Loop.

(** ** The index when the gap is not negative *)

Section LoopNonnegativeGap.

Variable from_wav : string -> option AudioSegment.
Variable last_file : string.
Variable gap_seconds : Z.
Hypothesis gap_nonneg : (0 <= gap_seconds)%Z.

Abbreviation silence := (AudioSegment.silent (gap_seconds * 1000)).
Abbreviation loop := (combine_loop from_wav last_file gap_seconds silence).

(** With the cursor at the end of what was merged so far, every new entry
    lies between the cursor and the end of the result, an entry ends before
    the next ones start, and the stretches of silence lie in the same range
    and apart from every entry. *)
Lemma combine_loop_index (todo : list string) :
  forall combined current_position c new,
    loop todo combined [] current_position = Ok (c, new) ->
    current_position == seconds combined ->
    seconds combined <= seconds c
    /\ Forall (fun e => current_position <= start e
                        /\ start e <= end_ e /\ end_ e <= seconds c) new
    /\ ForallOrdPairs (fun a b => end_ a <= start b) new
    /\ Forall (fun g => current_position <= fst g /\ snd g <= seconds c)
         (gap_intervals last_file gap_seconds todo new)
    /\ Forall (fun g => Forall (fun e => apart e g) new)
         (gap_intervals last_file gap_seconds todo new).
Proof.
  induction todo as [|wav_file rest IH]; intros combined cur c new.
  - simpl. intros [= <- <-] _. repeat split; try constructor. lra.
  - rewrite combine_loop_cons.
    destruct (from_wav wav_file) as [audio|]; [|discriminate].
    cbv zeta. intros Hloop Hcur.
    pose proof (seconds_add combined audio) as Hc1.
    pose proof (seconds_nonneg audio) as Haudio.
    pose proof (seconds_add (AudioSegment.add combined audio) silence) as Hc2.
    pose proof (seconds_silent gap_seconds gap_nonneg) as Hsil.
    assert (0 <= inject_Z gap_seconds) as Hgap
      by (change 0 with (inject_Z 0); rewrite <- Zle_Qle; exact gap_nonneg).
    simpl gap_intervals.
    destruct (differs_from_last last_file wav_file);
      match type of Hloop with
      | context [combine_loop _ _ _ _ rest ?c0 [] ?p] =>
          destruct (combine_loop from_wav last_file gap_seconds silence
                      rest c0 [] p) as [[c' new']|e] eqn:E
      end; try discriminate; injection Hloop as <- <-;
      apply IH in E; try lra;
      destruct E as (Hle & Hbounds & Hpairs & Hgaps & Hapart);
      simpl end_ in *.
    + repeat split.
      * lra.
      * constructor; [simpl; lra|].
        eapply Forall_impl; [|exact Hbounds]. simpl. intros e He; cbv beta in He. lra.
      * constructor; [|exact Hpairs].
        eapply Forall_impl; [|exact Hbounds]. simpl. intros e He; cbv beta in He. lra.
      * constructor; [simpl; lra|].
        eapply Forall_impl; [|exact Hgaps]. simpl. intros g He; cbv beta in He. lra.
      * constructor.
        -- constructor; [left; simpl; lra|].
           eapply Forall_impl; [|exact Hbounds]. intros e He; cbv beta in He.
           right. simpl. lra.
        -- rewrite Forall_forall in Hapart, Hgaps |- *. intros g Hg.
           constructor; [|now apply Hapart].
           left. simpl. specialize (Hgaps g Hg). simpl in Hgaps. lra.
    + repeat split.
      * lra.
      * constructor; [simpl; lra|].
        eapply Forall_impl; [|exact Hbounds]. simpl. intros e He; cbv beta in He. lra.
      * constructor; [|exact Hpairs].
        eapply Forall_impl; [|exact Hbounds]. simpl. intros e He; cbv beta in He. lra.
      * eapply Forall_impl; [|exact Hgaps]. simpl. intros g He; cbv beta in He. lra.
      * rewrite Forall_forall in Hapart, Hgaps |- *. intros g Hg.
        constructor; [|now apply Hapart].
        left. simpl. specialize (Hgaps g Hg). simpl in Hgaps. lra.
Qed.

(** A file that is not empty gets an interval that is not empty. *)
Lemma combine_loop_strict (todo : list string) :
  Forall (nonempty_audio from_wav) todo ->
  forall combined current_position c new,
    loop todo combined [] current_position = Ok (c, new) ->
    current_position == seconds combined ->
    Forall (fun e => start e < end_ e) new.
Proof.
  induction 1 as [|wav_file rest Hne _ IH]; intros combined cur c new.
  - simpl. intros [= <- <-] _. constructor.
  - rewrite combine_loop_cons.
    destruct (from_wav wav_file) as [audio|] eqn:Ea; [|discriminate].
    cbv zeta. intros Hloop Hcur.
    pose proof (seconds_add combined audio) as Hc1.
    pose proof (seconds_pos audio (Hne audio Ea)) as Haudio.
    pose proof (seconds_add (AudioSegment.add combined audio) silence) as Hc2.
    pose proof (seconds_silent gap_seconds gap_nonneg) as Hsil.
    destruct (differs_from_last last_file wav_file);
      match type of Hloop with
      | context [combine_loop _ _ _ _ rest ?c0 [] ?p] =>
          destruct (combine_loop from_wav last_file gap_seconds silence
                      rest c0 [] p) as [[c' new']|e] eqn:E
      end; try discriminate; injection Hloop as <- <-;
      apply IH in E; try lra; constructor; try exact E; simpl; lra.
Qed.

(** What was merged stays at the front of the result. *)
Lemma combine_loop_prefix (todo : list string) :
  forall combined current_position c new,
    loop todo combined [] current_position = Ok (c, new) ->
    exists suffix, c = (combined ++ suffix)%list.
Proof.
  induction todo as [|wav_file rest IH]; intros combined cur c new.
  - simpl. intros [= <- <-]. exists []. now rewrite app_nil_r.
  - rewrite combine_loop_cons.
    destruct (from_wav wav_file) as [audio|]; [|discriminate].
    cbv zeta.
    destruct (differs_from_last last_file wav_file);
      match goal with
      | |- context [combine_loop _ _ _ _ rest ?c0 [] ?p] =>
          destruct (combine_loop from_wav last_file gap_seconds silence
                      rest c0 [] p) as [[c' new']|e] eqn:E
      end; try discriminate; intros [= <- <-];
      apply IH in E; destruct E as [suffix ->];
      unfold AudioSegment.add; rewrite <- ?app_assoc; eauto.
Qed.

(** The stretches listed by [gap_intervals] are where the silence is: each
    starts at a whole millisecond [k] of the result, and the [gap_seconds]
    seconds of samples from there on are the silence. *)
Lemma gap_intervals_silent (todo : list string) :
  forall combined current_position c new,
    loop todo combined [] current_position = Ok (c, new) ->
    Forall (fun g => exists k : nat,
                fst g = (Z.of_nat k # 1000)
                /\ firstn (List.length silence) (skipn k c) = silence)
      (gap_intervals last_file gap_seconds todo new).
Proof.
  induction todo as [|wav_file rest IH]; intros combined cur c new.
  - simpl. intros [= <- <-]. constructor.
  - rewrite combine_loop_cons.
    destruct (from_wav wav_file) as [audio|]; [|discriminate].
    cbv zeta. simpl gap_intervals.
    destruct (differs_from_last last_file wav_file);
      match goal with
      | |- context [combine_loop _ _ _ _ rest ?c0 [] ?p] =>
          destruct (combine_loop from_wav last_file gap_seconds silence
                      rest c0 [] p) as [[c' new']|e] eqn:E
      end; try discriminate; intros [= <- <-]; [|now eapply IH; eauto].
    constructor; [|now eapply IH; eauto].
    apply combine_loop_prefix in E. destruct E as [suffix ->].
    exists (List.length (AudioSegment.add combined audio)). split.
    + reflexivity.
    + unfold AudioSegment.add. rewrite <- app_assoc.
      rewrite skipn_app, skipn_all, Nat.sub_diag. simpl.
      rewrite firstn_app, firstn_all, Nat.sub_diag. simpl.
      now rewrite app_nil_r.
Qed.

End LoopNonnegativeGap.

(** Entries that do not overlap and do not run backwards start in order. *)
Lemma no_overlap_sorted (file_positions : list file_info) :
  Forall (fun e => start e <= end_ e) file_positions ->
  ForallOrdPairs (fun a b => end_ a <= start b) file_positions ->
  StronglySorted (fun a b => start a <= start b) file_positions.
Proof.
  induction 2 as [|a l Ha _ IH]; constructor.
  - apply IH. now inversion H.
  - inversion H as [|? ? Hse _]; subst.
    eapply Forall_impl; [|exact Ha]. simpl. intros b Hb. lra.
Qed.

(** ** Where the next entry starts *)

Section LoopCursor.

Variable from_wav : string -> option AudioSegment.
Variable last_file : string.
Variable gap_seconds : Z.
Variable silence : AudioSegment.

Abbreviation loop := (combine_loop from_wav last_file gap_seconds silence).

Lemma combine_loop_head (todo : list string) (combined : AudioSegment)
    (current_position : Q) (c : AudioSegment) (e : file_info)
    (new : list file_info) :
  loop todo combined [] current_position = Ok (c, e :: new) ->
  start e = current_position.
Proof.
  destruct todo as [|wav_file rest]; [discriminate|].
  rewrite combine_loop_cons.
  destruct (from_wav wav_file) as [audio|]; [|discriminate].
  cbv zeta.
  destruct (differs_from_last last_file wav_file);
    match goal with
    | |- context [combine_loop _ _ _ _ rest ?c0 [] ?p] =>
        destruct (combine_loop from_wav last_file gap_seconds silence
                    rest c0 [] p) as [[c' new']|err]
    end; try discriminate; intros [= <- <- <-]; reflexivity.
Qed.

(** The entry behind entry [i] starts where entry [i] ends, [gap_seconds]
    later when file [i] passed the test of line 69. *)
Lemma combine_loop_next (todo : list string) :
  forall combined current_position c new,
    loop todo combined [] current_position = Ok (c, new) ->
    forall i wav_file e e',
      nth_error todo i = Some wav_file ->
      nth_error new i = Some e ->
      nth_error new (S i) = Some e' ->
      start e' = if differs_from_last last_file wav_file
                 then end_ e + inject_Z gap_seconds
                 else end_ e.
Proof.
  induction todo as [|f rest IH]; intros combined cur c new Hloop i.
  - destruct i; discriminate.
  - rewrite combine_loop_cons in Hloop.
    destruct (from_wav f) as [audio|]; [|discriminate].
    cbv zeta in Hloop.
    destruct (differs_from_last last_file f) eqn:D;
      match type of Hloop with
      | context [combine_loop _ _ _ _ rest ?c0 [] ?p] =>
          destruct (combine_loop from_wav last_file gap_seconds silence
                      rest c0 [] p) as [[c' new']|err] eqn:E
      end; try discriminate; injection Hloop as <- <-;
      intros wav_file e e'; destruct i as [|i]; simpl;
      try (intros; eapply IH; eassumption);
      intros [= <-] [= <-] H1; rewrite D;
      destruct new' as [|e1 new']; try discriminate;
      injection H1 as <-; apply combine_loop_head in E; exact E.
Qed.

End LoopCursor.

(** ** Counting the silences *)

Lemma differs_from_last_false (last_file wav_file : string) :
  differs_from_last last_file wav_file = false <-> wav_file = last_file.
Proof.
  unfold differs_from_last. rewrite negb_false_iff. apply String.eqb_eq.
Qed.

Lemma filter_keeps_all {A : Type} (f : A -> bool) (l : list A) :
  (forall x, In x l -> f x = true) -> filter f l = l.
Proof.
  induction l as [|a l IH]; simpl; intros H; [reflexivity|].
  rewrite (H a) by now left. f_equal. apply IH. intros x Hx. apply H. now right.
Qed.

Lemma filter_drops_one {A : Type} (f : A -> bool) (l : list A) (x : A) :
  In x l -> f x = false -> (List.length (filter f l) < List.length l)%nat.
Proof.
  induction l as [|a l IH]; simpl; [tauto|]. intros [->|Hx] Hf.
  - rewrite Hf. pose proof (filter_length_le f l). lia.
  - specialize (IH Hx Hf). destruct (f a); simpl; lia.
Qed.

Lemma silences_appended_split (wav_files : list string) :
  wav_files <> [] ->
  silences_appended (last wav_files "") wav_files
  = List.length
      (filter (differs_from_last (last wav_files "")) (removelast wav_files)).
Proof.
  intros Hne. unfold silences_appended.
  rewrite (app_removelast_last "" Hne) at 2.
  rewrite filter_app, length_app. simpl.
  replace (differs_from_last (last wav_files "") (last wav_files ""))
    with false by (symmetry; now apply differs_from_last_false).
  simpl. lia.
Qed.

Lemma length_removelast (wav_files : list string) :
  wav_files <> [] ->
  List.length wav_files = S (List.length (removelast wav_files)).
Proof.
  intros Hne. rewrite (app_removelast_last "" Hne) at 1.
  rewrite length_app. simpl. lia.
Qed.

(** When the last path stands only at the end, every file but the last is
    followed by the silence. *)
Lemma silences_appended_distinct (wav_files : list string) :
  wav_files <> [] ->
  ~ In (last wav_files "") (removelast wav_files) ->
  S (silences_appended (last wav_files "") wav_files) = List.length wav_files.
Proof.
  intros Hne Hlast.
  rewrite silences_appended_split, (length_removelast wav_files) by assumption.
  rewrite filter_keeps_all; [reflexivity|].
  intros x Hx. destruct (differs_from_last (last wav_files "") x) eqn:D.
  - reflexivity.
  - apply differs_from_last_false in D. now subst.
Qed.

(** When the last path also stands earlier, at least one more file is not
    followed by the silence. *)
Lemma silences_appended_repeated (wav_files : list string) :
  In (last wav_files "") (removelast wav_files) ->
  (S (S (silences_appended (last wav_files "") wav_files))
   <= List.length wav_files)%nat.
Proof.
  intros Hin.
  assert (wav_files <> []) as Hne by (intros ->; exact Hin).
  rewrite silences_appended_split, (length_removelast wav_files) by assumption.
  pose proof (filter_drops_one (differs_from_last (last wav_files "")) _ _ Hin)
    as H.
  specialize (H (proj2 (differs_from_last_false _ _) eq_refl)). lia.
Qed.

(** combine_wav_files as its loop, on a list that is not empty. *)
Lemma combine_wav_files_loop (from_wav : string -> option AudioSegment)
    (wav_files : list string) (gap_seconds : Z) :
  wav_files <> [] ->
  combine_wav_files from_wav wav_files gap_seconds
  = combine_loop from_wav (last wav_files "") gap_seconds
      (AudioSegment.silent (gap_seconds * 1000)) wav_files [] [] 0.
Proof.
  destruct wav_files; [congruence|reflexivity].
Qed.

Lemma seconds_empty : seconds [] == 0.
Proof. reflexivity. Qed.

(** ** C1: the duration of the merged timeline *)

Lemma inject_Z_pred_length (wav_files : list string) (n : nat) :
  S n = List.length wav_files ->
  inject_Z (Z.of_nat (List.length wav_files) - 1) == inject_Z (Z.of_nat n).
Proof.
  intros <-. rewrite Nat2Z.inj_succ.
  replace (Z.succ (Z.of_nat n) - 1)%Z with (Z.of_nat n) by lia. reflexivity.
Qed.

(** Whatever the list, when the gap is not negative the merged timeline
    lasts as long as the files together plus one gap for each file that
    differs from the last one. *)
Lemma combine_duration_exact (from_wav : string -> option AudioSegment)
    (wav_files : list string) (gap_seconds : Z) :
  wav_files <> [] ->
  Forall (readable from_wav) wav_files ->
  (0 <= gap_seconds)%Z ->
  exists combined file_positions,
    combine_wav_files from_wav wav_files gap_seconds
    = Ok (combined, file_positions)
    /\ seconds combined
       == sum_durations from_wav wav_files
          + inject_Z gap_seconds
            * inject_Z (Z.of_nat
                          (silences_appended (last wav_files "") wav_files)).
Proof.
  intros Hne Hread Hgap.
  rewrite combine_wav_files_loop by assumption.
  destruct (combine_loop_total from_wav (last wav_files "") gap_seconds
              (AudioSegment.silent (gap_seconds * 1000)) wav_files Hread [] 0)
    as (c & new & Hloop).
  exists c, new. split; [exact Hloop|].
  apply combine_loop_seconds in Hloop. rewrite Hloop.
  rewrite seconds_silent by assumption. rewrite seconds_empty. ring.
Qed.


Lemma readable_abc : Forall (readable fs3) abc.
Proof. repeat constructor; unfold readable; cbn; discriminate. Qed.

Lemma readable_aba : Forall (readable fs3) aba.
Proof. repeat constructor; unfold readable; cbn; discriminate. Qed.

Lemma readable_ab : Forall (readable fs3) ab.
Proof. repeat constructor; unfold readable; cbn; discriminate. Qed.



(** ** C3: the invariant of the position index *)

(** What the invariant and the lookup both rest on. *)
Lemma combine_index_facts (from_wav : string -> option AudioSegment)
    (wav_files : list string) (gap_seconds : Z) :
  wav_files <> [] ->
  Forall (readable from_wav) wav_files ->
  (0 <= gap_seconds)%Z ->
  exists combined file_positions,
    combine_wav_files from_wav wav_files gap_seconds
    = Ok (combined, file_positions)
    /\ ForallOrdPairs (fun a b => end_ a <= start b) file_positions
    /\ Forall (fun e => 0 <= start e /\ start e <= end_ e
                        /\ end_ e <= seconds combined) file_positions
    /\ Forall (fun g => Forall (fun e => apart e g) file_positions)
         (gap_intervals (last wav_files "") gap_seconds wav_files
            file_positions).
Proof.
  intros Hne Hread Hgap.
  rewrite combine_wav_files_loop by assumption.
  destruct (combine_loop_total from_wav (last wav_files "") gap_seconds
              (AudioSegment.silent (gap_seconds * 1000)) wav_files Hread [] 0)
    as (c & new & Hloop).
  exists c, new. split; [exact Hloop|].
  destruct (combine_loop_index from_wav (last wav_files "") gap_seconds Hgap
              wav_files [] 0 c new Hloop)
    as (_ & Hbounds & Hpairs & _ & Hapart); [reflexivity|].
  repeat split; assumption.
Qed.



Lemma positions_ab_negative_gap :
  positions_of (combine_wav_files fs3 ab (-1))
  = [ {| file := "a.wav"; start := 0; end_ := 2000 # 1000 |};
      {| file := "b.wav"; start := (2000 # 1000) + inject_Z (-1);
         end_ := 5500 # 1000 |} ].
Proof. vm_compute. reflexivity. Qed.


(** ** C2: get_current_file on the index *)

Lemma within_spec (e : file_info) (position : Q) :
  within e position = true <-> start e <= position /\ position < end_ e.
Proof.
  unfold within. rewrite andb_true_iff, negb_true_iff, Qle_bool_iff.
  split; intros [H1 H2]; split; try assumption.
  - apply Qnot_le_lt. intros Hle. apply Qle_bool_iff in Hle. congruence.
  - destruct (Qle_bool (end_ e) position) eqn:E; [|reflexivity].
    apply Qle_bool_iff in E. lra.
Qed.

Lemma within_false (e : file_info) (position : Q) :
  position < start e \/ end_ e <= position -> within e position = false.
Proof.
  intros H. destruct (within e position) eqn:E; [|reflexivity].
  apply within_spec in E. lra.
Qed.

(** The scan answers with the entry that holds the position, when entries do
    not overlap. *)
Lemma get_current_file_in_member (file_positions : list file_info)
    (position : Q) :
  ForallOrdPairs (fun a b => end_ a <= start b) file_positions ->
  forall e, In e file_positions -> within e position = true ->
            get_current_file_in file_positions position = file e.
Proof.
  induction 1 as [|a l Ha _ IH]; intros e Hin Hw; [contradiction|].
  simpl. destruct (within a position) eqn:Wa.
  - destruct Hin as [->|Hin]; [reflexivity|].
    rewrite Forall_forall in Ha. specialize (Ha e Hin).
    apply within_spec in Wa, Hw. lra.
  - destruct Hin as [->|Hin]; [congruence|]. now apply IH.
Qed.

Lemma get_current_file_in_unknown (file_positions : list file_info)
    (position : Q) :
  Forall (fun e => within e position = false) file_positions ->
  get_current_file_in file_positions position = unknown_file.
Proof.
  induction 1 as [|a l Ha _ IH]; simpl; [reflexivity|]. now rewrite Ha.
Qed.

Lemma ordered_pairs_nth {A : Type} (R : A -> A -> Prop) (l : list A) :
  ForallOrdPairs R l ->
  forall i j a b, nth_error l i = Some a -> nth_error l j = Some b ->
                  (i < j)%nat -> R a b.
Proof.
  induction 1 as [|x l Hx _ IH]; intros i j a b Hi Hj Hlt.
  - destruct i; discriminate.
  - destruct j as [|j]; [lia|]. destruct i as [|i]; simpl in *.
    + injection Hi as <-. rewrite Forall_forall in Hx. apply Hx.
      eapply nth_error_In; eassumption.
    + eapply IH; eauto. lia.
Qed.

(** At most one entry holds a given position. *)
Lemma within_unique (file_positions : list file_info) (position : Q) :
  ForallOrdPairs (fun a b => end_ a <= start b) file_positions ->
  forall i j e e',
    nth_error file_positions i = Some e ->
    nth_error file_positions j = Some e' ->
    within e position = true -> within e' position = true -> i = j.
Proof.
  intros Hpairs i j e e' Hi Hj Hw Hw'.
  apply within_spec in Hw, Hw'.
  destruct (Nat.lt_trichotomy i j) as [Hlt|[Heq|Hlt]]; [|exact Heq|].
  - pose proof (ordered_pairs_nth _ _ Hpairs i j e e' Hi Hj Hlt) as H.
    simpl in H. lra.
  - pose proof (ordered_pairs_nth _ _ Hpairs j i e' e Hj Hi Hlt) as H.
    simpl in H. lra.
Qed.




(** ** C10: the test of line 69 compares paths *)

Lemma combine_loop_length (from_wav : string -> option AudioSegment)
    (last_file : string) (gap_seconds : Z) (silence : AudioSegment)
    (todo : list string) (combined : AudioSegment) (current_position : Q)
    (c : AudioSegment) (new : list file_info) :
  combine_loop from_wav last_file gap_seconds silence todo combined []
    current_position = Ok (c, new) ->
  List.length new = List.length todo.
Proof.
  intros H. apply combine_loop_files in H.
  apply (f_equal (@List.length string)) in H.
  now rewrite !length_map in H.
Qed.



Example combine_aba_positions :
  positions_of (combine_wav_files fs3 aba 3)
  = [ {| file := "a.wav"; start := 0; end_ := 2000 # 1000 |};
      {| file := "b.wav"; start := 2000 # 1000; end_ := 5500 # 1000 |};
      {| file := "a.wav"; start := (5500 # 1000) + inject_Z 3;
         end_ := 10500 # 1000 |} ].
Proof. vm_compute. reflexivity. Qed.


(** ** The methods, field by field *)

Section MethodFacts.

Variable HAVE_SIMPLEAUDIO : bool.

Lemma pause_playing (self : AudioPlayer) :
  playing (pause HAVE_SIMPLEAUDIO self) = false.
Proof.
  unfold pause. destruct (playing self) eqn:E; cbn [negb]; [|exact E].
  destruct HAVE_SIMPLEAUDIO; cbn; [destruct (play_obj self)|]; reflexivity.
Qed.

Lemma pause_not_playing (self : AudioPlayer) :
  playing self = false -> pause HAVE_SIMPLEAUDIO self = self.
Proof.
  intros E. unfold pause. now rewrite E.
Qed.

End MethodFacts.

(** ** C7: pause is idempotent *)

(** C7. In any session state, calling pause() twice in a row leaves the
    session in the same state as calling it once: every attribute, and so the
    playing flag, the current position and the displayed file, and nothing
    more is sent to the playback primitive; and pause() changes nothing when
    the session is not playing. *)
Theorem pause_idempotent (HAVE_SIMPLEAUDIO : bool) (self : AudioPlayer) :
  pause HAVE_SIMPLEAUDIO (pause HAVE_SIMPLEAUDIO self)
  = pause HAVE_SIMPLEAUDIO self
  /\ (playing self = false -> pause HAVE_SIMPLEAUDIO self = self).
Proof.
  split.
  - apply pause_not_playing, pause_playing.
  - apply pause_not_playing.
Qed.

Lemma pause_idempotent_witness :
  pause true (pause true playing3) = pause true playing3
  /\ pause true player3 = player3.
Proof.
  split.
  - apply (pause_idempotent true playing3).
  - apply (pause_idempotent true player3). reflexivity.
Defined.

(** ** Construction *)

Example init_scenario :
  __init__ listing3 fs3 "outputs" 3
  = ([Printed (found_files_msg 3)], Ok (Complete player3)).
Proof. vm_compute. reflexivity. Qed.

Lemma init_attributes_well_formed (wav_files : list string)
    (combined_audio : AudioSegment) (file_positions : list file_info) :
  well_formed (init_attributes wav_files combined_audio file_positions).
Proof.
  constructor; cbn; try reflexivity.
  - split; [lra|apply seconds_nonneg].
  - lra.
Qed.

(** ** C4: no WAV file in the folder *)

(** C4 (amended). When the input set of WAV files is empty,
    combine_wav_files raises ValueError on the empty list, but the
    construction of the player does not call it and does not fail: __init__
    prints a warning and returns, and leaves a player object on which only
    wav_files, the empty list, is set: no merged timeline, no position index,
    no playback state and no widget. *)
Theorem init_without_wav_files (listing : list string)
    (from_wav : string -> option AudioSegment) (folder : string)
    (gap_seconds : Z) :
  get_wav_files listing folder = [] ->
  combine_wav_files from_wav (get_wav_files listing folder) gap_seconds
  = Raise (ValueError no_wav_files_msg)
  /\ __init__ listing from_wav folder gap_seconds
     = ([Printed no_files_warning], Ok (OnlyWavFiles [])).
Proof.
  intros Hempty. unfold __init__. rewrite Hempty. split; reflexivity.
Qed.

Lemma init_without_wav_files_witness :
  combine_wav_files fs3 (get_wav_files ["notes.txt"] "outputs") 3
  = Raise (ValueError no_wav_files_msg)
  /\ __init__ ["notes.txt"] fs3 "outputs" 3
     = ([Printed no_files_warning], Ok (OnlyWavFiles [])).
Proof.
  apply init_without_wav_files. reflexivity.
Defined.

(** On an empty directory the construction returns an object; it raises
    nothing. *)
Lemma init_without_wav_files_counterexample :
  get_wav_files [] "outputs" = []
  /\ snd (__init__ [] fs3 "outputs" 3) = Ok (OnlyWavFiles []).
Proof. split; reflexivity. Qed.

(** X22. On a folder without WAV files [create_audio_player] fails in
    [display()], with an attribute error on the object that [__init__]
    returned, after the warning was printed. *)
Lemma create_audio_player_without_wav_files (listing : list string)
    (from_wav : string -> option AudioSegment) (folder : string)
    (gap_seconds : Z) :
  get_wav_files listing folder = [] ->
  create_audio_player listing from_wav folder gap_seconds
  = ([Printed no_files_warning], Raise (AttributeError "play_button")).
Proof.
  intros Hempty. unfold create_audio_player, __init__. now rewrite Hempty.
Qed.

(** ** C8: stop *)

Section StopFacts.

Variable HAVE_SIMPLEAUDIO : bool.

(** A move of the slider while the session is not playing starts nothing and
    leaves the playback attributes, but the current position, alone. *)
Lemma set_slider_value_not_playing (v now : Q) (self : AudioPlayer) :
  playing self = false ->
  let self' := set_slider_value HAVE_SIMPLEAUDIO v now self in
  playing self' = false
  /\ play_obj self' = play_obj self
  /\ start_position self' = start_position self
  /\ start_time self' = start_time self
  /\ log self' = log self.
Proof.
  intros E. unfold set_slider_value.
  destruct (Qeq_bool _ _); [repeat split; exact E|].
  unfold on_position_change.
  cbn [playing set_position_slider]. rewrite E. cbn. repeat split. exact E.
Qed.

End StopFacts.



(** ** Frames, bounds and the slider *)

Lemma int_bounds (x : Q) (n : Z) :
  0 <= x -> x <= inject_Z n -> (0 <= int x <= n)%Z.
Proof.
  destruct x as [p q]. unfold int, Qle, inject_Z. simpl. intros H0 Hn.
  assert (0 <= p)%Z as Hp by lia.
  rewrite Z.quot_div_nonneg by lia. split.
  - apply Z.div_pos; lia.
  - apply Z.div_le_upper_bound; lia.
Qed.

Lemma seconds_frames (a : AudioSegment) :
  seconds a * inject_Z 1000 == inject_Z (Z.of_nat (List.length a)).
Proof.
  unfold seconds, AudioSegment.len, Qeq, Qmult, inject_Z. simpl. lia.
Qed.

(** The slider keeps a proposed value within its bounds. *)
Lemma validate_spec (sl : Slider.t) (v : Q) :
  Slider.min sl <= Slider.max sl ->
  Slider.validate sl v == Qmin (Qmax v (Slider.min sl)) (Slider.max sl)
  /\ Slider.min sl <= Slider.validate sl v
  /\ Slider.validate sl v <= Slider.max sl.
Proof.
  intros Hmm.
  assert (Slider.min sl <= Qmin (Qmax v (Slider.min sl)) (Slider.max sl)
          /\ Qmin (Qmax v (Slider.min sl)) (Slider.max sl) <= Slider.max sl)
    as Hclamp.
  { split; [|apply Q.le_min_r].
    apply Q.min_glb; [apply Q.le_max_r|exact Hmm]. }
  unfold Slider.validate.
  destruct (Qle_bool (Slider.min sl) v) eqn:E1;
    destruct (Qle_bool v (Slider.max sl)) eqn:E2; cbn [negb orb];
    try (split; [reflexivity|exact Hclamp]).
  apply Qle_bool_iff in E1, E2.
  split; [|split; assumption].
  rewrite Q.max_l by assumption. rewrite Q.min_l by assumption.
  reflexivity.
Qed.

Lemma validate_in_range (sl : Slider.t) (v : Q) :
  Slider.min sl <= v -> v <= Slider.max sl -> Slider.validate sl v = v.
Proof.
  intros H1 H2. unfold Slider.validate.
  apply Qle_bool_iff in H1, H2. now rewrite H1, H2.
Qed.

Section SessionFacts.

Variable HAVE_SIMPLEAUDIO : bool.

(** Within the merged timeline a position always yields a wave object: the
    rest of the frames from the frame of that position on. *)
Lemma create_wav_obj_in_range (position_seconds : Q) (self : AudioPlayer) :
  well_formed self ->
  0 <= position_seconds -> position_seconds <= total_duration self ->
  _create_wav_obj_from_position position_seconds self
  = (Some {| audio_data :=
               skipn (Z.to_nat (int (position_seconds * inject_Z 1000)))
                 (combined_audio self);
             num_channels := 1; bytes_per_sample := 2;
             sample_rate := 1000 |},
     self).
Proof.
  intros Hwf H0 Htotal. unfold _create_wav_obj_from_position.
  rewrite (wf_output _ Hwf).
  cbn [save_combined_audio framerate nchannels sampwidth frames].
  destruct (int_bounds (position_seconds * inject_Z 1000)
              (Z.of_nat (List.length (combined_audio self)))) as [Hlo Hhi].
  - apply Qmult_le_0_compat; [exact H0|]. unfold Qle, inject_Z; simpl; lia.
  - rewrite <- seconds_frames. apply Qmult_le_compat_r; [exact Htotal|].
    unfold Qle, inject_Z; simpl; lia.
  - replace (_ <? 0)%Z with false by (symmetry; apply Z.ltb_ge; lia).
    replace (_ <? _)%Z with false by (symmetry; apply Z.ltb_ge; lia).
    reflexivity.
Qed.

(** [pause] touches the playing flag, the button and the log only, and
    prints nothing. *)
Lemma pause_frame (self : AudioPlayer) :
  let self' := pause HAVE_SIMPLEAUDIO self in
  combined_audio self' = combined_audio self
  /\ file_positions self' = file_positions self
  /\ output_path self' = output_path self
  /\ position_slider self' = position_slider self
  /\ current_position self' = current_position self
  /\ start_position self' = start_position self
  /\ play_obj self' = play_obj self
  /\ progress_thread self' = progress_thread self
  /\ filter is_print (log self') = filter is_print (log self).
Proof.
  unfold pause, emit. destruct (playing self); cbn [negb]; [|now repeat split].
  destruct HAVE_SIMPLEAUDIO; cbn; [|now repeat split].
  destruct (play_obj self) eqn:Eo; cbn; rewrite ?Eo, ?filter_app; cbn;
    rewrite ?app_nil_r; now repeat split.
Qed.

Lemma pause_well_formed (self : AudioPlayer) :
  well_formed self -> well_formed (pause HAVE_SIMPLEAUDIO self).
Proof.
  intros [W1 W2 W3 W4 W5].
  destruct (pause_frame self) as (E1 & _ & E2 & E3 & _ & E4 & _).
  constructor; unfold total_duration in *; rewrite ?E1, ?E2, ?E3, ?E4;
    assumption.
Qed.

End SessionFacts.

Section PlayFacts.

Variable HAVE_SIMPLEAUDIO : bool.

(** [play()] on a session that is not playing: it starts at the slider's
    value and prints no error; with simpleaudio it plays the rest of the
    merged audio from that position, without it the whole file. *)
Lemma play_spec (now : Q) (self : AudioPlayer) :
  well_formed self ->
  playing self = false ->
  let self' := play HAVE_SIMPLEAUDIO now self in
  let position := Slider.value (position_slider self) in
  let wav_obj :=
    {| audio_data :=
         skipn (Z.to_nat (int (position * inject_Z 1000)))
           (combined_audio self);
       num_channels := 1; bytes_per_sample := 2; sample_rate := 1000 |} in
  playing self' = true
  /\ combined_audio self' = combined_audio self
  /\ file_positions self' = file_positions self
  /\ output_path self' = output_path self
  /\ position_slider self' = position_slider self
  /\ current_position self' = current_position self
  /\ start_position self' = position
  /\ start_time self' = now
  /\ filter is_print (log self') = filter is_print (log self)
  /\ (HAVE_SIMPLEAUDIO = true ->
      play_obj self' = Some wav_obj
      /\ (log self' = (log self ++ [SaPlay wav_obj])%list
          \/ log self' = (log self ++ [SaPlay wav_obj; ThreadStart])%list))
  /\ (HAVE_SIMPLEAUDIO = false ->
      play_obj self' = play_obj self
      /\ log self' = (log self ++ [DisplayAudio (output_path self) true])%list
      /\ file_label self' = {| Label.value := degraded_msg |}).
Proof.
  intros Hwf E. destruct Hwf as [W1 W2 W3 [W4 W5] W6].
  unfold play. rewrite E. cbv zeta.
  destruct HAVE_SIMPLEAUDIO.
  - match goal with
    | |- context [_create_wav_obj_from_position ?p ?s] =>
        assert (well_formed s) as Hwf1
          by (constructor; cbn; auto);
        rewrite (create_wav_obj_in_range p s Hwf1) by (cbn; assumption)
    end.
    cbn.
    destruct (progress_thread self) as [[|]|]; cbn;
      rewrite ?filter_app; cbn; rewrite ?app_nil_r;
      repeat split; try discriminate; auto;
      unfold emit; cbn; rewrite <- ?app_assoc; cbn; auto.
  - cbn. rewrite filter_app; cbn; rewrite app_nil_r.
    repeat split; try discriminate; auto.
Qed.

Lemma play_well_formed (now : Q) (self : AudioPlayer) :
  well_formed self -> well_formed (play HAVE_SIMPLEAUDIO now self).
Proof.
  intros Hwf. destruct (playing self) eqn:E.
  - unfold play. now rewrite E.
  - destruct (play_spec now self Hwf E)
      as (_ & E1 & _ & E2 & E3 & _ & E4 & _).
    destruct Hwf as [W1 W2 W3 [W4 W5] W6].
    constructor; unfold total_duration in *; rewrite ?E1, ?E2, ?E3, ?E4;
      auto.
Qed.

End PlayFacts.

Section SeekFacts.

Variable HAVE_SIMPLEAUDIO : bool.

Lemma set_current_position_well_formed (x : Q) (self : AudioPlayer) :
  well_formed self -> well_formed (set_current_position x self).
Proof. intros [W1 W2 W3 W4 W5]. constructor; cbn; assumption. Qed.

Lemma pause_log_degraded (self : AudioPlayer) :
  HAVE_SIMPLEAUDIO = false -> log (pause HAVE_SIMPLEAUDIO self) = log self.
Proof.
  intros ->. unfold pause. destruct (playing self); reflexivity.
Qed.

(** The observer of the slider. Not playing: it records the position, the
    file there and the label, and starts nothing. Playing: it pauses, records
    the position and plays again from the slider's value. *)
Lemma on_position_change_spec (new now : Q) (self : AudioPlayer) :
  well_formed self ->
  let self' := on_position_change HAVE_SIMPLEAUDIO new now self in
  let position := Slider.value (position_slider self) in
  let wav_obj :=
    {| audio_data :=
         skipn (Z.to_nat (int (position * inject_Z 1000)))
           (combined_audio self);
       num_channels := 1; bytes_per_sample := 2; sample_rate := 1000 |} in
  well_formed self'
  /\ position_slider self' = position_slider self
  /\ combined_audio self' = combined_audio self
  /\ file_positions self' = file_positions self
  /\ playing self' = playing self
  /\ current_position self' = new
  /\ filter is_print (log self') = filter is_print (log self)
  /\ (playing self = false ->
      log self' = log self /\ play_obj self' = play_obj self
      /\ start_position self' = start_position self
      /\ start_time self' = start_time self
      /\ current_file_name self' = get_current_file self new
      /\ file_label self'
         = {| Label.value := "準備完了: " ++ get_current_file self new |})
  /\ (playing self = true ->
      start_position self' = position /\ start_time self' = now
      /\ (HAVE_SIMPLEAUDIO = true ->
          play_obj self' = Some wav_obj
          /\ (log self'
              = (log (pause HAVE_SIMPLEAUDIO self) ++ [SaPlay wav_obj])%list
              \/ log self'
                 = (log (pause HAVE_SIMPLEAUDIO self)
                      ++ [SaPlay wav_obj; ThreadStart])%list))
      /\ (HAVE_SIMPLEAUDIO = false ->
          play_obj self' = play_obj self
          /\ log self'
             = (log self ++ [DisplayAudio (output_path self) true])%list
          /\ file_label self' = {| Label.value := degraded_msg |})).
Proof.
  intros Hwf. unfold on_position_change.
  destruct (playing self) eqn:E; cbn [negb].
  - pose proof (pause_playing HAVE_SIMPLEAUDIO self) as Hp.
    pose proof (pause_well_formed HAVE_SIMPLEAUDIO self Hwf) as Hwfp.
    destruct (pause_frame HAVE_SIMPLEAUDIO self)
      as (P1 & P2 & P3 & P4 & P5 & P6 & P7 & P8 & P9).
    set (s2 := set_current_position new (pause HAVE_SIMPLEAUDIO self)).
    assert (well_formed s2) as Hwf2
      by now apply set_current_position_well_formed.
    assert (playing s2 = false) as E2 by exact Hp.
    destruct (play_spec HAVE_SIMPLEAUDIO now s2 Hwf2 E2)
      as (Q1 & Q2 & Q3 & Q4 & Q5 & Q6 & Q7 & Q8 & Q9 & Q10 & Q11).
    cbn [s2 set_current_position combined_audio file_positions output_path
         position_slider current_position log play_obj] in *.
    split; [now apply play_well_formed|].
    do 6 (split; [congruence|]).
    split; [discriminate|].
    intros _. split; [congruence|]. split; [congruence|]. split.
    + intros H. destruct (Q10 H) as [K1 K2].
      rewrite P1, P4 in K1. rewrite P1, P4 in K2. split; assumption.
    + intros H. destruct (Q11 H) as (K1 & K2 & K3).
      rewrite P3, (pause_log_degraded self H) in K2.
      repeat split; congruence.
  - destruct Hwf as [W1 W2 W3 [W4 W4'] W5].
    repeat split; try discriminate; try assumption; cbn; assumption.
Qed.

(** A new value for the slider: it is brought within [0, total duration],
    stored, and the observer runs when it differs from the old one. *)
Lemma set_slider_value_spec (v now : Q) (self : AudioPlayer) :
  well_formed self ->
  let new := Slider.validate (position_slider self) v in
  let moved :=
    set_position_slider (Slider.with_value new (position_slider self)) self in
  new == Qmin (Qmax v 0) (total_duration self)
  /\ 0 <= new /\ new <= total_duration self
  /\ well_formed moved
  /\ set_slider_value HAVE_SIMPLEAUDIO v now self
     = if Qeq_bool (Slider.value (position_slider self)) new then self
       else on_position_change HAVE_SIMPLEAUDIO new now moved.
Proof.
  intros Hwf. destruct Hwf as [W1 W2 W3 [W4 W5] W6].
  destruct (validate_spec (position_slider self) v) as (V1 & V2 & V3).
  { rewrite W2, W3. apply seconds_nonneg. }
  rewrite W2 in V1, V2. rewrite W3 in V1, V3.
  repeat split; try assumption; cbn; assumption.
Qed.

End SeekFacts.

(** ** C6: offsets out of range *)

Lemma pause_log_moved (HAVE_SIMPLEAUDIO : bool) (sl : Slider.t)
    (self : AudioPlayer) :
  log (pause HAVE_SIMPLEAUDIO (set_position_slider sl self))
  = log (pause HAVE_SIMPLEAUDIO self).
Proof.
  unfold pause. cbn. destruct (playing self); cbn; [|reflexivity].
  destruct HAVE_SIMPLEAUDIO; [destruct (play_obj self)|]; reflexivity.
Qed.

(** Where the slider ends up. *)
Lemma seek_facts (HAVE_SIMPLEAUDIO : bool) (v now : Q) (self : AudioPlayer) :
  well_formed self ->
  let position :=
    Slider.value
      (position_slider (set_slider_value HAVE_SIMPLEAUDIO v now self)) in
  position == Qmin (Qmax v 0) (total_duration self)
  /\ 0 <= position /\ position <= total_duration self.
Proof.
  intros Hwf.
  destruct (set_slider_value_spec HAVE_SIMPLEAUDIO v now self Hwf)
    as (Hclamp & Hlo & Hhi & Hwfm & Heq).
  cbv zeta. rewrite Heq. clear Heq.
  destruct (Qeq_bool (Slider.value (position_slider self))
              (Slider.validate (position_slider self) v)) eqn:Emoved.
  - apply Qeq_bool_iff in Emoved. rewrite Emoved. auto.
  - destruct (on_position_change_spec HAVE_SIMPLEAUDIO
                (Slider.validate (position_slider self) v) now _ Hwfm)
      as (_ & S1 & _).
    rewrite S1. cbn. auto.
Qed.





(** ** C9: one round of the progress poller *)

Section PollerFacts.

Variable HAVE_SIMPLEAUDIO : bool.

(** The slider set to a position of the timeline: the value is stored as it
    is, and the current position, when it was that position already, still
    is, whether the observer ran or not. *)
Lemma set_slider_in_range (v now : Q) (self : AudioPlayer) :
  well_formed self ->
  0 <= v -> v <= total_duration self ->
  current_position self = v ->
  let self' := set_slider_value HAVE_SIMPLEAUDIO v now self in
  Slider.value (position_slider self') == v
  /\ current_position self' = v
  /\ file_positions self' = file_positions self.
Proof.
  intros Hwf H0 Htot Hcur.
  destruct (set_slider_value_spec HAVE_SIMPLEAUDIO v now self Hwf)
    as (_ & _ & _ & Hwfm & Heq).
  cbv zeta. rewrite Heq. clear Heq.
  revert Hwfm. rewrite validate_in_range.
  - intros Hwfm.
    destruct (Qeq_bool (Slider.value (position_slider self)) v) eqn:E.
    + apply Qeq_bool_iff in E. repeat split; assumption.
    + destruct (on_position_change_spec HAVE_SIMPLEAUDIO v now _ Hwfm)
        as (_ & S1 & _ & S2 & _ & S3 & _).
      rewrite S1, S2, S3. cbn. split; [reflexivity|]. split; reflexivity.
  - now rewrite (wf_min _ Hwf).
  - now rewrite (wf_max _ Hwf).
Qed.

End PollerFacts.

(** C9. On every round of the progress poller while the session is playing
    and the playback primitive reports that playback has not finished, the
    current offset becomes start_position + (now - start_time), brought down
    to the total duration when it reaches it; the slider shows that offset,
    the active file is resolved from it through the position index, and the
    label shows that file. *)
Theorem progress_round (now now' : Q) (self : AudioPlayer) :
  well_formed self ->
  playing self = true ->
  play_obj self <> None ->
  start_time self <= now ->
  let round := update_progress_step true now now' true self in
  let self' := fst round in
  let offset :=
    Qmin (start_position self + (now - start_time self))
         (total_duration self) in
  snd round = true
  /\ current_position self' == offset
  /\ Slider.value (position_slider self') == offset
  /\ file_positions self' = file_positions self
  /\ current_file_name self'
     = get_current_file_in (file_positions self) (current_position self')
  /\ file_label self'
     = {| Label.value := "再生中: " ++ current_file_name self' |}.
Proof.
  intros Hwf Hplaying Hobj Hnow round self' offset.
  pose proof (wf_start _ Hwf) as Hstart.
  pose proof (seconds_nonneg (combined_audio self)) as Htotal.
  fold (total_duration self) in Htotal.
  set (cp := start_position self + (now - start_time self)) in *.
  assert (0 <= cp) as Hcp by (unfold cp; lra).
  (* the state and the offset after the comparison with the total duration *)
  set (s2 := if Qle_bool (total_duration self) cp
             then set_playing false
                    (set_current_position (total_duration self)
                       (set_current_position cp self))
             else set_current_position cp self).
  set (v := if Qle_bool (total_duration self) cp
            then total_duration self else cp).
  assert (current_position s2 = v) as Hv
    by (unfold s2, v; destruct (Qle_bool (total_duration self) cp);
        reflexivity).
  assert (file_positions s2 = file_positions self) as Hfp
    by (unfold s2; destruct (Qle_bool (total_duration self) cp);
        reflexivity).
  assert (total_duration s2 = total_duration self) as Htd
    by (unfold s2; destruct (Qle_bool (total_duration self) cp);
        reflexivity).
  assert (well_formed s2) as Hwf2.
  { destruct Hwf as [W1 W2 W3 W4 W5].
    unfold s2; destruct (Qle_bool (total_duration self) cp);
      constructor; cbn; assumption. }
  assert (v == offset /\ 0 <= v /\ v <= total_duration self) as (Hoff & Hv0 & Hv1).
  { unfold v, offset. fold cp.
    destruct (Qle_bool (total_duration self) cp) eqn:Eend.
    - apply Qle_bool_iff in Eend.
      rewrite Q.min_r by exact Eend. repeat split; lra.
    - assert (cp < total_duration self) as Hlt.
      { apply Qnot_le_lt. intros Hle. apply Qle_bool_iff in Hle.
        congruence. }
      rewrite Q.min_l by lra. repeat split; lra. }
  set (s3 := set_slider_value true v now' s2).
  assert (round
          = (set_file_label
               {| Label.value :=
                    "再生中: " ++ get_current_file s3 (current_position s3) |}
               (set_current_file_name
                  (get_current_file s3 (current_position s3)) s3),
             true)) as Hround.
  { unfold round, update_progress_step. rewrite Hplaying.
    destruct (play_obj self) as [handle|]; [|congruence].
    unfold s3. rewrite <- Hv. reflexivity. }
  destruct (set_slider_in_range true v now' s2 Hwf2 Hv0) as (R1 & R2 & R3).
  { now rewrite Htd. }
  { exact Hv. }
  fold s3 in R1, R2, R3.
  unfold self'. rewrite Hround.
  unfold get_current_file.
  cbn [fst snd set_file_label set_current_file_name current_position
       position_slider file_positions current_file_name file_label].
  rewrite R2, R3, Hfp.
  split; [reflexivity|]. split; [exact Hoff|].
  split; [now rewrite R1|]. repeat split.
Qed.

Lemma progress_round_witness :
  let round := update_progress_step true 4.25 4.26 true playing3 in
  let self' := fst round in
  let offset :=
    Qmin (start_position playing3 + (4.25 - start_time playing3))
         (total_duration playing3) in
  snd round = true
  /\ current_position self' == offset
  /\ Slider.value (position_slider self') == offset
  /\ file_positions self' = file_positions playing3
  /\ current_file_name self'
     = get_current_file_in (file_positions playing3) (current_position self')
  /\ file_label self'
     = {| Label.value := "再生中: " ++ current_file_name self' |}.
Proof.
  apply progress_round.
  - constructor; try reflexivity; try split; vm_compute; discriminate.
  - reflexivity.
  - vm_compute. discriminate.
  - vm_compute. discriminate.
Defined.

(** After 4.25 s of the scenario the poller shows the gap behind a.wav; the
    round has restarted the playback at 4.25 s through the slider's
    observer. *)
Example progress_round_scenario :
  let self' := fst (update_progress_step true 4.25 4.26 true playing3) in
  current_position self' == 4.25
  /\ current_file_name self' = unknown_file
  /\ start_position self' == 4.25
  /\ start_time self' == 4.26
  /\ playing self' = true.
Proof. vm_compute. repeat split. Qed.


(** ** C5: without simpleaudio *)

(** C5 (amended). When simpleaudio is unavailable, play() with any requested
    offset (any value of the slider) still succeeds: the session is playing,
    the whole merged file is handed to the notebook's audio player, which
    plays it from offset 0, and the label reports the limitation. seek()
    cannot move that playback: while the session is not playing it starts
    nothing, while it is playing all it can start is the whole merged file
    from offset 0 once more; it never touches a playback handle. It does
    record the requested offset, clamped, as the current position. *)
Theorem degraded_mode (now : Q) (self : AudioPlayer) :
  well_formed self ->
  let whole := save_combined_audio (combined_audio self) in
  (playing self = false ->
   let self' := play false now self in
   playing self' = true
   /\ log self' = (log self ++ [DisplayAudio whole true])%list
   /\ file_label self' = {| Label.value := degraded_msg |})
  /\ (forall v : Q,
         let self' := set_slider_value false v now self in
         playing self' = playing self
         /\ play_obj self' = play_obj self
         /\ (playing self = false -> log self' = log self)
         /\ (log self' = log self
             \/ log self' = (log self ++ [DisplayAudio whole true])%list)
         /\ (~ Slider.value (position_slider self)
               == Slider.value (position_slider self') ->
             current_position self' = Slider.value (position_slider self'))).
Proof.
  intros Hwf. cbv zeta. rewrite <- (wf_output _ Hwf). split.
  - intros E.
    destruct (play_spec false now self Hwf E)
      as (P1 & _ & _ & _ & _ & _ & _ & _ & _ & _ & P2).
    destruct (P2 eq_refl) as (_ & P3 & P4).
    split; [exact P1|]. split; [exact P3|exact P4].
  - intros v.
    destruct (set_slider_value_spec false v now self Hwf)
      as (_ & _ & _ & Hwfm & Heq).
    rewrite Heq. clear Heq.
    destruct (Qeq_bool (Slider.value (position_slider self))
                (Slider.validate (position_slider self) v)) eqn:Emoved.
    + split; [reflexivity|]. split; [reflexivity|].
      split; [reflexivity|]. split; [now left|].
      intros Hne. elim Hne. reflexivity.
    + destruct (on_position_change_spec false
                  (Slider.validate (position_slider self) v) now _ Hwfm)
        as (_ & S1 & _ & _ & S2 & S3 & _ & S4 & S5).
      rewrite S1.
      cbn [set_position_slider position_slider Slider.with_value
           Slider.value playing log play_obj output_path] in *.
      split; [exact S2|]. split.
      { destruct (playing self) eqn:E.
        - destruct (S5 eq_refl) as (_ & _ & _ & K).
          now destruct (K eq_refl).
        - now destruct (S4 eq_refl) as (_ & K & _). }
      split.
      { intros E. now destruct (S4 E). }
      split.
      { destruct (playing self) eqn:E.
        - right. destruct (S5 eq_refl) as (_ & _ & _ & K).
          now destruct (K eq_refl) as (_ & L & _).
        - left. now destruct (S4 eq_refl). }
      intros _. exact S3.
Qed.

Lemma degraded_mode_witness :
  let whole := save_combined_audio (combined_audio player3) in
  (playing player3 = false ->
   let self' := play false 0 player3 in
   playing self' = true
   /\ log self' = (log player3 ++ [DisplayAudio whole true])%list
   /\ file_label self' = {| Label.value := degraded_msg |})
  /\ (forall v : Q,
         let self' := set_slider_value false v 0 player3 in
         playing self' = playing player3
         /\ play_obj self' = play_obj player3
         /\ (playing player3 = false -> log self' = log player3)
         /\ (log self' = log player3
             \/ log self' = (log player3 ++ [DisplayAudio whole true])%list)
         /\ (~ Slider.value (position_slider player3)
               == Slider.value (position_slider self') ->
             current_position self' = Slider.value (position_slider self'))).
Proof.
  apply degraded_mode.
  constructor; try reflexivity; try split; vm_compute; discriminate.
Defined.

(** Without simpleaudio, on the session playing the scenario, seek(5) moves
    the current position from 0 to 5 and hands the whole file to the audio
    player a second time. *)
Lemma degraded_mode_counterexample :
  let self' := set_slider_value false 5 1 degraded3 in
  playing degraded3 = true
  /\ current_position degraded3 == 0
  /\ current_position self' == 5
  /\ log self'
     = (log degraded3
          ++ [DisplayAudio (save_combined_audio (combined_audio player3))
                true])%list.
Proof. vm_compute. repeat split. Qed.

(** ** The methods keep the player well formed *)

Lemma set_slider_value_well_formed (HAVE_SIMPLEAUDIO : bool) (v now : Q)
    (self : AudioPlayer) :
  well_formed self ->
  well_formed (set_slider_value HAVE_SIMPLEAUDIO v now self).
Proof.
  intros Hwf.
  destruct (set_slider_value_spec HAVE_SIMPLEAUDIO v now self Hwf)
    as (_ & _ & _ & Hwfm & ->).
  destruct (Qeq_bool _ _); [exact Hwf|].
  now apply on_position_change_spec.
Qed.

Lemma stop_well_formed (HAVE_SIMPLEAUDIO : bool) (now : Q)
    (self : AudioPlayer) :
  well_formed self -> well_formed (stop HAVE_SIMPLEAUDIO now self).
Proof.
  intros Hwf. unfold stop.
  pose proof (set_slider_value_well_formed HAVE_SIMPLEAUDIO 0 now _
                (pause_well_formed HAVE_SIMPLEAUDIO self Hwf))
    as [W1 W2 W3 W4 W5].
  constructor; cbn; assumption.
Qed.

(** After [stop()] the slider is back at 0. *)
Lemma stop_slider (HAVE_SIMPLEAUDIO : bool) (now : Q) (self : AudioPlayer) :
  well_formed self ->
  Slider.value (position_slider (stop HAVE_SIMPLEAUDIO now self)) == 0.
Proof.
  intros Hwf.
  pose proof (pause_well_formed HAVE_SIMPLEAUDIO self Hwf) as Hwfp.
  destruct (seek_facts HAVE_SIMPLEAUDIO 0 now _ Hwfp) as [H _].
  unfold stop. cbn [set_file_label set_current_position position_slider].
  rewrite H. rewrite Q.max_l by apply Qle_refl.
  apply Q.min_l. apply seconds_nonneg.
Qed.

Lemma toggle_play_well_formed (HAVE_SIMPLEAUDIO : bool) (now : Q)
    (self : AudioPlayer) :
  well_formed self -> well_formed (toggle_play HAVE_SIMPLEAUDIO now self).
Proof.
  intros Hwf. unfold toggle_play. destruct (playing self).
  - now apply pause_well_formed.
  - now apply play_well_formed.
Qed.

Lemma update_progress_step_well_formed (HAVE_SIMPLEAUDIO : bool)
    (now now' : Q) (is_playing : bool) (self : AudioPlayer) :
  well_formed self ->
  well_formed
    (fst (update_progress_step HAVE_SIMPLEAUDIO now now' is_playing self)).
Proof.
  intros Hwf.
  assert (forall s b, well_formed s ->
                      well_formed (set_progress_thread b s)) as Hthread
    by (intros s b [W1 W2 W3 W4 W5]; constructor; cbn; assumption).
  unfold update_progress_step.
  destruct (playing self); cbn [negb]; [|now apply Hthread].
  destruct HAVE_SIMPLEAUDIO; cbn [negb]; [|now apply Hthread].
  destruct (play_obj self) as [handle|]; [|now apply Hthread].
  destruct is_playing; cbn [negb fst].
  - set (cp := start_position self + (now - start_time self)).
    set (s2 := if Qle_bool (total_duration (set_current_position cp self))
                    (current_position (set_current_position cp self))
               then set_playing false
                      (set_current_position
                         (total_duration (set_current_position cp self))
                         (set_current_position cp self))
               else set_current_position cp self).
    assert (well_formed s2) as Hwf2.
    { destruct Hwf as [W1 W2 W3 W4 W5]. unfold s2.
      destruct (Qle_bool _ _); constructor; cbn; assumption. }
    pose proof (set_slider_value_well_formed true (current_position s2) now'
                  s2 Hwf2) as [W1 W2 W3 W4 W5].
    constructor; cbn; assumption.
  - apply Hthread. destruct Hwf as [W1 W2 W3 W4 W5].
    constructor; cbn; assumption.
Qed.

(** ** What [__init__] builds *)

(** A complete player holds the merged audio and the index of
    combine_wav_files on the sorted WAV files of the folder; it is well
    formed and not playing. *)
Lemma init_complete (listing : list string)
    (from_wav : string -> option AudioSegment) (folder : string)
    (gap_seconds : Z) (out : list event) (player : AudioPlayer) :
  __init__ listing from_wav folder gap_seconds = (out, Ok (Complete player)) ->
  combine_wav_files from_wav (get_wav_files listing folder) gap_seconds
  = Ok (combined_audio player, file_positions player)
  /\ well_formed player
  /\ playing player = false
  /\ log player = [].
Proof.
  unfold __init__.
  destruct (get_wav_files listing folder) as [|f files] eqn:Hfiles;
    [discriminate|].
  destruct (combine_wav_files from_wav (f :: files) gap_seconds)
    as [[c p]|e]; [|discriminate].
  intros [= <- <-]. split; [reflexivity|]. split.
  - apply init_attributes_well_formed.
  - split; reflexivity.
Qed.

(** ** The poller's loop *)

(** Once the session is not playing, the next round ends the thread and
    publishes nothing. *)
Lemma update_progress_stops (HAVE_SIMPLEAUDIO : bool) (now now' : Q)
    (is_playing : bool) (rest : list (Q * Q * bool)) (self : AudioPlayer) :
  playing self = false ->
  update_progress HAVE_SIMPLEAUDIO ((now, now', is_playing) :: rest) self
  = set_progress_thread (Some false) self.
Proof.
  intros E. cbn [update_progress]. unfold update_progress_step.
  rewrite E. reflexivity.
Qed.

(** Playback that has finished ends the loop with the session not playing. *)
Lemma update_progress_finished (now now' : Q) (rest : list (Q * Q * bool))
    (self : AudioPlayer) :
  playing self = true -> play_obj self <> None ->
  let self' := update_progress true ((now, now', false) :: rest) self in
  playing self' = false
  /\ current_position self' = current_position self
  /\ file_label self' = {| Label.value := "再生完了" |}
  /\ progress_thread self' = Some false.
Proof.
  intros E Hobj. cbn [update_progress]. unfold update_progress_step.
  rewrite E. destruct (play_obj self); [|congruence].
  cbn. repeat split.
Qed.

(** The scenario, stopped while playing: the handle is told to stop, and the
    session is back at 0. *)
Example stop_scenario :
  let self' := stop true 7 playing3 in
  playing self' = false
  /\ current_position self' = 0
  /\ Slider.value (position_slider self') = 0
  /\ List.length (log self') = S (List.length (log playing3)).
Proof. vm_compute. repeat split. Qed.

(** * Further properties of the code *)

(** ** Paths *)

Lemma basename_bare (file : string) :
  Path.has_sep file = false -> Path.basename file = file.
Proof.
  destruct file as [|c rest]; [reflexivity|]. simpl.
  intros H. now rewrite H.
Qed.

Lemma has_sep_append (a b : string) :
  Path.ends_with_sep a = true -> Path.has_sep (a ++ b) = true.
Proof.
  induction a as [|c a IH]; [discriminate|]. simpl.
  destruct a as [|c' a'].
  - intros ->. reflexivity.
  - intros H. rewrite (IH H). apply orb_true_r.
Qed.

Lemma basename_append (a b : string) :
  Path.has_sep b = false ->
  a = "" \/ Path.ends_with_sep a = true ->
  Path.basename (a ++ b) = b.
Proof.
  intros Hb. induction a as [|c a IH]; intros Ha.
  - now apply basename_bare.
  - destruct Ha as [Ha|Ha]; [discriminate|].
    change (String c a ++ b) with (String c (a ++ b)).
    cbn [Path.basename].
    destruct a as [|c' a'].
    + simpl in Ha. rewrite Ha. simpl. now apply basename_bare.
    + assert (Path.ends_with_sep (String c' a') = true) as Ha' by exact Ha.
      rewrite (has_sep_append _ b Ha'), orb_true_r. apply IH. now right.
Qed.

Lemma ends_with_sep_slash (folder : string) :
  Path.ends_with_sep (folder ++ "/") = true.
Proof.
  induction folder as [|c a IH]; [reflexivity|].
  change (String c a ++ "/") with (String c (a ++ "/")).
  destruct a as [|c' a']; [reflexivity|]. exact IH.
Qed.

(** On a name without separator, [join] puts a prefix in front that is empty
    or ends with the separator. *)
Lemma join_bare (folder file : string) :
  bare_name file ->
  exists prefix,
    Path.join folder file = prefix ++ file
    /\ (prefix = "" \/ Path.ends_with_sep prefix = true)
    /\ prefix = (if (folder =? "")%string || Path.ends_with_sep folder
                 then folder else folder ++ "/").
Proof.
  intros Hbare. unfold bare_name in Hbare.
  exists (if (folder =? "")%string || Path.ends_with_sep folder
          then folder else folder ++ "/").
  assert (forall s, s ++ "" = s) as Hnil
    by (induction s as [|c s IH]; simpl; congruence).
  split; [|split; [|reflexivity]].
  - unfold Path.join. destruct file as [|c rest].
    + rewrite Hnil. reflexivity.
    + simpl in Hbare. apply orb_false_iff in Hbare as [Hc _]. rewrite Hc.
      destruct ((folder =? "")%string || Path.ends_with_sep folder);
        [reflexivity|].
      clear. induction folder as [|d f IH]; simpl; [reflexivity|].
      f_equal. exact IH.
  - destruct (folder =? "")%string eqn:E; simpl.
    + left. now apply String.eqb_eq.
    + destruct (Path.ends_with_sep folder) eqn:E'; [now right|].
      right. apply ends_with_sep_slash.
Qed.

Lemma basename_join_bare (folder file : string) :
  bare_name file -> Path.basename (Path.join folder file) = file.
Proof.
  intros Hbare. destruct (join_bare folder file Hbare) as (prefix & -> & H & _).
  now apply basename_append.
Qed.

(** X21. [basename] undoes [join]: for every folder and every name without
    separator, the base name of the joined path is the name. *)
Theorem basename_join (folder file : string) :
  bare_name file -> Path.basename (Path.join folder file) = file.
Proof. apply basename_join_bare. Qed.

Lemma basename_join_witness :
  Path.basename (Path.join "outputs" "a.wav") = "a.wav".
Proof. apply basename_join. reflexivity. Defined.

Lemma append_cancel (prefix a b : string) :
  prefix ++ a = prefix ++ b -> a = b.
Proof.
  induction prefix as [|c p IH]; simpl; [trivial|].
  intros [= H]. now apply IH.
Qed.

Lemma join_injective (folder a b : string) :
  bare_name a -> bare_name b ->
  Path.join folder a = Path.join folder b -> a = b.
Proof.
  intros Ha Hb.
  destruct (join_bare folder a Ha) as (pa & -> & _ & ->).
  destruct (join_bare folder b Hb) as (pb & -> & _ & ->).
  apply append_cancel.
Qed.

(** ** get_wav_files *)

Lemma insert_sorted_perm (x : string) (l : list string) :
  Permutation (insert_sorted x l) (x :: l).
Proof.
  induction l as [|y l IH]; simpl; [reflexivity|].
  destruct (String.leb x y); [reflexivity|].
  rewrite IH. apply perm_swap.
Qed.

Lemma sorted_perm (l : list string) : Permutation (sorted l) l.
Proof.
  induction l as [|x l IH]; simpl; [reflexivity|].
  unfold sorted in IH. rewrite insert_sorted_perm. now constructor.
Qed.

Lemma insert_sorted_Sorted (x : string) (l : list string) :
  Sorted (fun a b => String.leb a b = true) l ->
  Sorted (fun a b => String.leb a b = true) (insert_sorted x l).
Proof.
  induction 1 as [|y l Hl IH Hy]; simpl.
  - repeat constructor.
  - destruct (String.leb x y) eqn:E.
    + constructor; [now constructor|]. now constructor.
    + constructor; [exact IH|].
      assert (String.leb y x = true) as Hyx
        by (destruct (String.leb_total x y); congruence).
      destruct l as [|z l]; simpl.
      * now constructor.
      * inversion Hy; subst. destruct (String.leb x z); now constructor.
Qed.

Lemma sorted_Sorted (l : list string) :
  Sorted (fun a b => String.leb a b = true) (sorted l).
Proof.
  induction l as [|x l IH]; simpl; [constructor|].
  now apply insert_sorted_Sorted.
Qed.

Lemma get_wav_files_In (listing : list string) (folder path : string) :
  In path (get_wav_files listing folder)
  <-> exists file,
        In file listing
        /\ endswith (lower file) ".wav" = true
        /\ path = Path.join folder file.
Proof.
  unfold get_wav_files. split.
  - intros H. apply (Permutation_in _ (sorted_perm _)) in H.
    apply in_map_iff in H as (file & <- & H).
    apply filter_In in H as [H1 H2]. eauto.
  - intros (file & H1 & H2 & ->).
    apply (Permutation_in _ (Permutation_sym (sorted_perm _))).
    apply in_map. apply filter_In. now split.
Qed.

(** X1. get_wav_files returns exactly the entries of the folder whose name,
    put in lower case, ends with .wav, each joined to the folder: nothing
    else, and none of them left out. *)
Theorem get_wav_files_exact (listing : list string) (folder path : string) :
  In path (get_wav_files listing folder)
  <-> exists file,
        In file listing
        /\ endswith (lower file) ".wav" = true
        /\ path = Path.join folder file.
Proof. apply get_wav_files_In. Qed.

(** X2. The paths get_wav_files returns are in ascending order, and there is
    one path for each entry of the folder that ends with .wav, repeated
    entries counted as often as they stand in the listing. *)
Theorem get_wav_files_sorted (listing : list string) (folder : string) :
  Sorted (fun a b => String.leb a b = true) (get_wav_files listing folder)
  /\ Permutation (get_wav_files listing folder)
       (map (Path.join folder)
          (filter (fun file => endswith (lower file) ".wav") listing))
  /\ List.length (get_wav_files listing folder)
     = List.length
         (filter (fun file => endswith (lower file) ".wav") listing).
Proof.
  unfold get_wav_files. split; [apply sorted_Sorted|]. split.
  - apply sorted_perm.
  - rewrite (Permutation_length (sorted_perm _)). apply length_map.
Qed.

Lemma get_wav_files_NoDup (listing : list string) (folder : string) :
  NoDup listing ->
  Forall bare_name listing ->
  NoDup (get_wav_files listing folder).
Proof.
  intros Hnodup Hbare. unfold get_wav_files.
  apply (Permutation_NoDup (Permutation_sym (sorted_perm _))).
  set (keep := fun file => endswith (lower file) ".wav").
  assert (NoDup (filter keep listing)) as Hf by now apply NoDup_filter.
  assert (Forall bare_name (filter keep listing)) as Hb.
  { rewrite Forall_forall in *. intros f Hin. apply filter_In in Hin.
    now apply Hbare. }
  induction Hf as [|f l Hnin _ IH]; simpl; constructor.
  - intros Hin. apply in_map_iff in Hin as (g & Hg & Hin).
    inversion Hb as [|? ? Hbf Hbl]; subst. rewrite Forall_forall in Hbl.
    apply join_injective in Hg; [subst; contradiction| |assumption].
    now apply Hbl.
  - apply IH. now inversion Hb.
Qed.

(** X3. When the listing holds distinct names without separator, as
    os.listdir gives them, the paths get_wav_files returns are distinct. *)
Theorem get_wav_files_distinct (listing : list string) (folder : string) :
  NoDup listing ->
  Forall bare_name listing ->
  NoDup (get_wav_files listing folder).
Proof.
  intros Hnodup Hbare. now apply get_wav_files_NoDup.
Qed.

Lemma get_wav_files_distinct_witness :
  NoDup (get_wav_files listing3 "outputs").
Proof.
  apply get_wav_files_distinct.
  - repeat constructor; cbn; intuition discriminate.
  - repeat constructor.
Defined.

(** ** combine_wav_files: errors, names, where the audio lies *)

Section LoopMore.

Variable from_wav : string -> option AudioSegment.
Variable last_file : string.
Variable gap_seconds : Z.
Variable silence : AudioSegment.

Abbreviation loop := (combine_loop from_wav last_file gap_seconds silence).

(** The loop stops at the first file that does not decode. *)
Lemma combine_loop_first_unreadable (todo : list string) :
  forall combined current_position,
    match find (unreadable from_wav) todo with
    | Some wav_file =>
        loop todo combined [] current_position = Raise (DecodeError wav_file)
    | None =>
        exists c new, loop todo combined [] current_position = Ok (c, new)
    end.
Proof.
  induction todo as [|f rest IH]; intros combined cur.
  - simpl. eauto.
  - rewrite combine_loop_cons. cbn [find]. unfold unreadable at 1.
    destruct (from_wav f) as [audio|]; [|reflexivity].
    cbv zeta.
    destruct (differs_from_last last_file f);
      match goal with
      | |- context [combine_loop _ _ _ _ rest ?c0 [] ?p] =>
          specialize (IH c0 p)
      end;
      destruct (find (unreadable from_wav) rest) as [g|];
      try (now rewrite IH);
      destruct IH as (c & new & ->); eauto.
Qed.

(** The first entry starts at the cursor. *)
Lemma combine_loop_first (todo : list string) (combined : AudioSegment)
    (current_position : Q) (c : AudioSegment) (new : list file_info) :
  todo <> [] ->
  loop todo combined [] current_position = Ok (c, new) ->
  exists e rest, new = e :: rest /\ start e = current_position.
Proof.
  destruct todo as [|f rest]; [congruence|]. intros _.
  rewrite combine_loop_cons.
  destruct (from_wav f) as [audio|]; [|discriminate]. cbv zeta.
  destruct (differs_from_last last_file f);
    match goal with
    | |- context [combine_loop _ _ _ _ rest ?c0 [] ?p] =>
        destruct (combine_loop from_wav last_file gap_seconds silence
                    rest c0 [] p) as [[c' new']|err]
    end; try discriminate; intros [= <- <-]; eauto.
Qed.

(** When the loop is given the last path of its own list, the last entry
    ends where the merged audio ends. *)
Lemma combine_loop_last (todo : list string) :
  forall combined current_position c new,
    todo <> [] -> last todo "" = last_file ->
    loop todo combined [] current_position = Ok (c, new) ->
    exists front e, new = (front ++ [e])%list /\ end_ e = seconds c.
Proof.
  induction todo as [|f rest IH]; intros combined cur c new Hne Hlast;
    [congruence|].
  rewrite combine_loop_cons.
  destruct (from_wav f) as [audio|]; [|discriminate]. cbv zeta.
  destruct rest as [|g rest].
  - simpl in Hlast. subst f. unfold differs_from_last.
    rewrite String.eqb_refl. simpl. intros [= <- <-].
    exists [], {| file := Path.basename last_file; start := cur;
                  end_ := seconds (AudioSegment.add combined audio) |}.
    split; reflexivity.
  - assert (last (g :: rest) "" = last_file) as Hlast' by exact Hlast.
    destruct (differs_from_last last_file f);
      match goal with
      | |- context [combine_loop _ _ _ _ (g :: rest) ?c0 [] ?p] =>
          destruct (combine_loop from_wav last_file gap_seconds silence
                      (g :: rest) c0 [] p) as [[c' new']|err] eqn:E
      end; try discriminate; intros [= <- <-];
      apply IH in E; try congruence; try exact Hlast';
      destruct E as (front & e & -> & He);
      exists ({| file := Path.basename f; start := cur;
                 end_ := seconds (AudioSegment.add combined audio) |}
                :: front), e; split; auto.
Qed.

End LoopMore.

(** Where the audio of each file lies in the merged audio, when the gap is
    not negative: from the millisecond its entry starts at to the millisecond
    its entry ends at. *)
Lemma combine_loop_audio (from_wav : string -> option AudioSegment)
    (last_file : string) (gap_seconds : Z) (todo : list string) :
  (0 <= gap_seconds)%Z ->
  forall combined current_position c new,
    combine_loop from_wav last_file gap_seconds
      (AudioSegment.silent (gap_seconds * 1000)) todo combined []
      current_position = Ok (c, new) ->
    current_position == seconds combined ->
    Forall2 (fun wav_file e =>
               exists audio k,
                 from_wav wav_file = Some audio
                 /\ start e == (Z.of_nat k # 1000)
                 /\ end_ e = (Z.of_nat (k + List.length audio) # 1000)
                 /\ firstn (List.length audio) (skipn k c) = audio)
      todo new.
Proof.
  intros Hgap.
  induction todo as [|f rest IH]; intros combined cur c new.
  - simpl. intros [= <- <-] _. constructor.
  - rewrite combine_loop_cons.
    destruct (from_wav f) as [audio|] eqn:Ef; [|discriminate]. cbv zeta.
    intros Hloop Hcur.
    pose proof (seconds_add (AudioSegment.add combined audio)
                  (AudioSegment.silent (gap_seconds * 1000))) as Hc2.
    pose proof (seconds_silent gap_seconds Hgap) as Hsil.
    destruct (differs_from_last last_file f);
      match type of Hloop with
      | context [combine_loop _ _ _ _ rest ?c0 [] ?p] =>
          destruct (combine_loop from_wav last_file gap_seconds
                      (AudioSegment.silent (gap_seconds * 1000))
                      rest c0 [] p) as [[c' new']|err] eqn:E
      end; try discriminate; injection Hloop as <- <-;
      (constructor;
       [ exists audio, (List.length combined);
         split; [exact Ef|]; split; [exact Hcur|]; split;
         [ cbn [end_]; unfold seconds, AudioSegment.len, AudioSegment.add;
           now rewrite length_app
         | apply combine_loop_prefix in E; destruct E as [suffix ->];
           unfold AudioSegment.add; rewrite <- ?app_assoc;
           rewrite skipn_app, skipn_all, Nat.sub_diag; simpl;
           rewrite firstn_app, firstn_all, Nat.sub_diag; simpl;
           now rewrite app_nil_r ]
       | eapply IH; [exact E|]; try reflexivity; lra ]).
Qed.

(** X5. combine_wav_files on a list that is not empty raises the decode
    error of the first file, in list order, that does not decode, and
    returns nothing; when every file decodes it returns a result. *)
Theorem combine_first_decode_error (from_wav : string -> option AudioSegment)
    (wav_files : list string) (gap_seconds : Z) :
  wav_files <> [] ->
  match find (unreadable from_wav) wav_files with
  | Some wav_file =>
      combine_wav_files from_wav wav_files gap_seconds
      = Raise (DecodeError wav_file)
  | None =>
      exists combined file_positions,
        combine_wav_files from_wav wav_files gap_seconds
        = Ok (combined, file_positions)
  end.
Proof.
  intros Hne. rewrite combine_wav_files_loop by assumption.
  apply combine_loop_first_unreadable.
Qed.

Lemma combine_first_decode_error_witness :
  combine_wav_files fs3 ["outputs/a.wav"; "outputs/x.wav"; "outputs/y.wav"] 3
  = Raise (DecodeError "outputs/x.wav").
Proof.
  apply (combine_first_decode_error fs3
           ["outputs/a.wav"; "outputs/x.wav"; "outputs/y.wav"] 3).
  discriminate.
Defined.

(** X6. For every list of files that all decode and every gap, negative ones
    included, the index has one entry per file, in the order of the list and
    named by the base name of the path; the first entry starts at 0 and the
    last entry ends exactly where the merged audio ends. *)
Theorem combine_entries (from_wav : string -> option AudioSegment)
    (wav_files : list string) (gap_seconds : Z) :
  wav_files <> [] ->
  Forall (readable from_wav) wav_files ->
  exists combined file_positions,
    combine_wav_files from_wav wav_files gap_seconds
    = Ok (combined, file_positions)
    /\ map file file_positions = map Path.basename wav_files
    /\ List.length file_positions = List.length wav_files
    /\ (exists e rest, file_positions = e :: rest /\ start e = 0)
    /\ (exists front e,
           file_positions = (front ++ [e])%list
           /\ end_ e = seconds combined).
Proof.
  intros Hne Hread. rewrite combine_wav_files_loop by assumption.
  destruct (combine_loop_total from_wav (last wav_files "") gap_seconds
              (AudioSegment.silent (gap_seconds * 1000)) wav_files Hread [] 0)
    as (c & new & Hloop).
  exists c, new. split; [exact Hloop|]. split; [|split; [|split]].
  - eapply combine_loop_files; exact Hloop.
  - eapply combine_loop_length; exact Hloop.
  - eapply combine_loop_first; eassumption.
  - eapply combine_loop_last; try eassumption. reflexivity.
Qed.

Lemma combine_entries_witness :
  exists combined file_positions,
    combine_wav_files fs3 abc (-2) = Ok (combined, file_positions)
    /\ map file file_positions = map Path.basename abc
    /\ List.length file_positions = List.length abc
    /\ (exists e rest, file_positions = e :: rest /\ start e = 0)
    /\ (exists front e,
           file_positions = (front ++ [e])%list
           /\ end_ e = seconds combined).
Proof.
  apply combine_entries.
  - discriminate.
  - exact readable_abc.
Defined.







(** ** get_current_file on any index *)

(** X10. On any list of entries, overlapping or not, get_current_file
    answers with the first entry, in list order, whose interval holds the
    position; it answers with the unknown-file name when no entry holds it;
    and the end of an entry never belongs to that entry. *)
Theorem get_current_file_first_match (file_positions : list file_info)
    (position : Q) :
  (forall front e back,
      file_positions = (front ++ e :: back)%list ->
      Forall (fun e' => within e' position = false) front ->
      within e position = true ->
      get_current_file_in file_positions position = file e)
  /\ (Forall (fun e => within e position = false) file_positions ->
      get_current_file_in file_positions position = unknown_file)
  /\ (get_current_file_in file_positions position = unknown_file
      \/ exists e, In e file_positions /\ within e position = true
                   /\ get_current_file_in file_positions position = file e)
  /\ (forall e, within e (end_ e) = false).
Proof.
  split; [|split; [|split]].
  - intros front e back -> Hfront He.
    induction Hfront as [|a front Ha _ IH]; simpl.
    + now rewrite He.
    + now rewrite Ha.
  - apply get_current_file_in_unknown.
  - induction file_positions as [|a l IH]; simpl; [now left|].
    destruct (within a position) eqn:E.
    + right. exists a. repeat split; auto.
    + destruct IH as [IH|(e & H1 & H2 & H3)]; [now left|].
      right. exists e. repeat split; auto.
  - intros e. apply within_false. right. apply Qle_refl.
Qed.

Lemma get_current_file_first_match_witness :
  get_current_file_in (positions_of (combine_wav_files fs3 ab (-1))) 1.5
  = "a.wav".
Proof.
  destruct (get_current_file_first_match
              (positions_of (combine_wav_files fs3 ab (-1))) 1.5)
    as (H & _).
  rewrite positions_ab_negative_gap.
  rewrite positions_ab_negative_gap in H.
  apply (H [] {| file := "a.wav"; start := 0; end_ := 2000 # 1000 |}
           [{| file := "b.wav"; start := (2000 # 1000) + inject_Z (-1);
               end_ := 5500 # 1000 |}]).
  - reflexivity.
  - constructor.
  - reflexivity.
Defined.

(** ** _create_wav_obj_from_position and play *)



(** X12. When the frame of the slider's value lies outside the exported
    file, play() with simpleaudio still marks the session as playing and
    records the anchors, but the only thing it does outside is print the
    playback error: no wave object is played, the handle is left as it was
    and no poller thread is started. *)
Theorem play_out_of_range (now : Q) (self : AudioPlayer) :
  let nframes := Z.of_nat (List.length (frames (output_path self))) in
  let position := Slider.value (position_slider self) in
  playing self = false ->
  (start_frame_of self position < 0
   \/ nframes < start_frame_of self position)%Z ->
  let self' := play true now self in
  playing self' = true
  /\ start_position self' = position
  /\ start_time self' = now
  /\ play_obj self' = play_obj self
  /\ progress_thread self' = progress_thread self
  /\ log self' = (log self ++ [Printed playback_error_msg])%list.
Proof.
  intros nframes position E Hout. unfold play. rewrite E. cbv zeta.
  unfold _create_wav_obj_from_position.
  cbn [set_start_time set_start_position set_play_button set_playing
       output_path start_position position_slider].
  fold position. fold (start_frame_of self position). fold nframes.
  assert ((start_frame_of self position <? 0)%Z
          || (nframes <? start_frame_of self position)%Z = true) as ->.
  { apply orb_true_iff. destruct Hout; [left|right]; now apply Z.ltb_lt. }
  cbn. repeat split.
Qed.

Lemma play_out_of_range_witness :
  let self' := play true 0 beyond3 in
  playing self' = true
  /\ start_position self' = Slider.value (position_slider beyond3)
  /\ start_time self' = 0
  /\ play_obj self' = play_obj beyond3
  /\ progress_thread self' = progress_thread beyond3
  /\ log self' = (log beyond3 ++ [Printed playback_error_msg])%list.
Proof.
  apply (play_out_of_range 0 beyond3).
  - reflexivity.
  - right. vm_compute. reflexivity.
Defined.

(** X13. play() always leaves the session marked as playing, so a second
    play() changes nothing and toggle_play always flips the playing flag,
    with or without simpleaudio and whether or not playback could start. *)
Theorem toggle_play_flips (HAVE_SIMPLEAUDIO : bool) (now now' : Q)
    (self : AudioPlayer) :
  playing (play HAVE_SIMPLEAUDIO now self) = true
  /\ play HAVE_SIMPLEAUDIO now' (play HAVE_SIMPLEAUDIO now self)
     = play HAVE_SIMPLEAUDIO now self
  /\ playing (toggle_play HAVE_SIMPLEAUDIO now self) = negb (playing self).
Proof.
  assert (playing (play HAVE_SIMPLEAUDIO now self) = true) as Hplay.
  { unfold play. destruct (playing self) eqn:E; [exact E|]. cbv zeta.
    destruct HAVE_SIMPLEAUDIO; [|reflexivity].
    unfold _create_wav_obj_from_position.
    match goal with
    | |- context [if ?b then _ else _] => destruct b
    end; [reflexivity|].
    cbn. destruct (progress_thread self) as [[|]|]; reflexivity. }
  split; [exact Hplay|]. split.
  - unfold play at 1. now rewrite Hplay.
  - unfold toggle_play. destruct (playing self) eqn:E; cbn [negb].
    + apply pause_playing.
    + exact Hplay.
Qed.



(** ** seek and stop *)

(** X15. A move of the slider while the session is not playing only
    records: the current position becomes the new value of the slider, the
    current file name is the file the index gives for it, the label shows
    that name after the ready prefix, and nothing is started or stopped. *)
Theorem seek_not_playing (HAVE_SIMPLEAUDIO : bool) (v now : Q)
    (self : AudioPlayer) :
  well_formed self ->
  playing self = false ->
  let self' := set_slider_value HAVE_SIMPLEAUDIO v now self in
  let position := Slider.value (position_slider self') in
  ~ Slider.value (position_slider self) == position ->
  current_position self' = position
  /\ current_file_name self'
     = get_current_file_in (file_positions self) position
  /\ file_label self'
     = {| Label.value :=
            "準備完了: "
            ++ get_current_file_in (file_positions self) position |}
  /\ playing self' = false
  /\ play_obj self' = play_obj self
  /\ log self' = log self.
Proof.
  intros Hwf E.
  destruct (set_slider_value_spec HAVE_SIMPLEAUDIO v now self Hwf)
    as (_ & _ & _ & Hwfm & Heq).
  cbv zeta. rewrite Heq. clear Heq.
  destruct (Qeq_bool (Slider.value (position_slider self))
              (Slider.validate (position_slider self) v)) eqn:Emoved.
  - apply Qeq_bool_iff in Emoved. intros Hne. elim Hne. reflexivity.
  - intros _.
    destruct (on_position_change_spec HAVE_SIMPLEAUDIO
                (Slider.validate (position_slider self) v) now _ Hwfm)
      as (_ & S1 & _ & _ & S2 & S3 & _ & S4 & _).
    rewrite S1.
    cbn [set_position_slider position_slider Slider.with_value
         Slider.value playing] in *.
    destruct (S4 E) as (K1 & K2 & _ & _ & K3 & K4).
    unfold get_current_file in K3, K4.
    cbn [set_position_slider file_positions log play_obj] in *.
    repeat split; congruence.
Qed.

Lemma seek_not_playing_witness :
  let self' := set_slider_value true 6.5 0 player3 in
  let position := Slider.value (position_slider self') in
  current_position self' = position
  /\ current_file_name self'
     = get_current_file_in (file_positions player3) position
  /\ file_label self'
     = {| Label.value :=
            "準備完了: "
            ++ get_current_file_in (file_positions player3) position |}
  /\ playing self' = false
  /\ play_obj self' = play_obj player3
  /\ log self' = log player3.
Proof.
  apply (seek_not_playing true 6.5 0 player3).
  - constructor; try reflexivity; try split; vm_compute; discriminate.
  - reflexivity.
  - vm_compute. discriminate.
Defined.

Lemma Qeq_bool_same (x : Q) : Qeq_bool x x = true.
Proof. apply Qeq_bool_iff. reflexivity. Qed.

(** After [stop()] a second assignment of 0 to the slider changes nothing. *)
Lemma stop_slider_settled (HAVE_SIMPLEAUDIO : bool) (now now' : Q)
    (self : AudioPlayer) :
  set_slider_value HAVE_SIMPLEAUDIO 0 now' (stop HAVE_SIMPLEAUDIO now self)
  = stop HAVE_SIMPLEAUDIO now self.
Proof.
  pose proof (pause_playing HAVE_SIMPLEAUDIO self) as Hp.
  unfold stop.
  set (p := pause HAVE_SIMPLEAUDIO self) in *.
  unfold set_slider_value at 1.
  cbn [set_file_label set_current_position position_slider].
  unfold set_slider_value.
  destruct (Qeq_bool (Slider.value (position_slider p))
              (Slider.validate (position_slider p) 0)) eqn:E.
  - now rewrite E.
  - unfold on_position_change.
    cbn [set_position_slider playing]. rewrite Hp. cbn [negb].
    cbn [set_file_label set_current_file_name set_current_position
         position_slider set_position_slider Slider.with_value
         Slider.value].
    replace (Slider.validate
               {| Slider.value := Slider.validate (position_slider p) 0;
                  Slider.min := Slider.min (position_slider p);
                  Slider.max := Slider.max (position_slider p) |} 0)
      with (Slider.validate (position_slider p) 0) by reflexivity.
    now rewrite Qeq_bool_same.
Qed.

(** [stop()] leaves a session that is not playing, at position 0 and with
    the stopped label already. *)
Lemma stop_is_settled (HAVE_SIMPLEAUDIO : bool) (now : Q)
    (self : AudioPlayer) :
  playing (stop HAVE_SIMPLEAUDIO now self) = false
  /\ set_file_label {| Label.value := "停止しました" |}
       (set_current_position 0 (stop HAVE_SIMPLEAUDIO now self))
     = stop HAVE_SIMPLEAUDIO now self.
Proof.
  split.
  - unfold stop. cbn [set_file_label set_current_position playing].
    apply set_slider_value_not_playing. apply pause_playing.
  - reflexivity.
Qed.

(** X16. stop() is idempotent on every session state: a second stop()
    leaves the whole state, the log of outside effects included, as the
    first one left it. *)
Theorem stop_idempotent (HAVE_SIMPLEAUDIO : bool) (now now' : Q)
    (self : AudioPlayer) :
  stop HAVE_SIMPLEAUDIO now' (stop HAVE_SIMPLEAUDIO now self)
  = stop HAVE_SIMPLEAUDIO now self.
Proof.
  destruct (stop_is_settled HAVE_SIMPLEAUDIO now self) as [Hplaying Hshape].
  unfold stop at 1.
  rewrite (pause_not_playing HAVE_SIMPLEAUDIO _ Hplaying).
  rewrite stop_slider_settled. exact Hshape.
Qed.

(** ** What every method keeps *)

Lemma kept_of_well_formed (self self' : AudioPlayer) :
  well_formed self -> well_formed self' ->
  combined_audio self' = combined_audio self ->
  file_positions self' = file_positions self ->
  filter is_print (log self') = filter is_print (log self) ->
  kept self self'.
Proof.
  intros Hwf Hwf' Hc Hf Hl. unfold kept.
  split; [exact Hwf'|]. split; [exact Hc|]. split; [exact Hf|].
  split; [|exact Hl].
  now rewrite (wf_output _ Hwf'), (wf_output _ Hwf), Hc.
Qed.

Lemma well_formed_same (self self' : AudioPlayer) :
  well_formed self ->
  output_path self' = output_path self ->
  combined_audio self' = combined_audio self ->
  position_slider self' = position_slider self ->
  start_position self' = start_position self ->
  well_formed self'.
Proof.
  intros [W1 W2 W3 W4 W5] Ho Hc Hs Hp.
  constructor; unfold total_duration in *; rewrite ?Ho, ?Hc, ?Hs, ?Hp;
    assumption.
Qed.

Lemma kept_refl (self : AudioPlayer) : well_formed self -> kept self self.
Proof. intros Hwf. now apply kept_of_well_formed. Qed.

Lemma kept_trans (a b c : AudioPlayer) : kept a b -> kept b c -> kept a c.
Proof.
  intros (_ & A1 & A2 & A3 & A4) (B0 & B1 & B2 & B3 & B4).
  unfold kept. split; [exact B0|]. repeat split; congruence.
Qed.

Section Kept.

Variable HAVE_SIMPLEAUDIO : bool.

Lemma pause_kept (self : AudioPlayer) :
  well_formed self -> kept self (pause HAVE_SIMPLEAUDIO self).
Proof.
  intros Hwf.
  destruct (pause_frame HAVE_SIMPLEAUDIO self)
    as (P1 & P2 & _ & _ & _ & _ & _ & _ & P9).
  apply kept_of_well_formed; auto. now apply pause_well_formed.
Qed.

Lemma play_kept (now : Q) (self : AudioPlayer) :
  well_formed self -> kept self (play HAVE_SIMPLEAUDIO now self).
Proof.
  intros Hwf. destruct (playing self) eqn:E.
  - unfold play. rewrite E. now apply kept_refl.
  - destruct (play_spec HAVE_SIMPLEAUDIO now self Hwf E)
      as (_ & Q2 & Q3 & _ & _ & _ & _ & _ & Q9 & _).
    apply kept_of_well_formed; auto. now apply play_well_formed.
Qed.

Lemma set_slider_value_kept (v now : Q) (self : AudioPlayer) :
  well_formed self -> kept self (set_slider_value HAVE_SIMPLEAUDIO v now self).
Proof.
  intros Hwf.
  destruct (set_slider_value_spec HAVE_SIMPLEAUDIO v now self Hwf)
    as (_ & _ & _ & Hwfm & ->).
  destruct (Qeq_bool _ _); [now apply kept_refl|].
  destruct (on_position_change_spec HAVE_SIMPLEAUDIO
              (Slider.validate (position_slider self) v) now _ Hwfm)
    as (S0 & _ & S2 & S3 & _ & _ & S5 & _).
  apply kept_of_well_formed; auto.
Qed.

Lemma stop_kept (now : Q) (self : AudioPlayer) :
  well_formed self -> kept self (stop HAVE_SIMPLEAUDIO now self).
Proof.
  intros Hwf.
  pose proof (pause_kept self Hwf) as K1.
  pose proof (set_slider_value_kept 0 now _ (proj1 K1)) as K2.
  destruct (kept_trans _ _ _ K1 K2) as (W & A1 & A2 & A3 & A4).
  unfold stop. apply kept_of_well_formed; auto.
  eapply well_formed_same; [exact W|reflexivity..].
Qed.

Lemma toggle_play_kept (now : Q) (self : AudioPlayer) :
  well_formed self -> kept self (toggle_play HAVE_SIMPLEAUDIO now self).
Proof.
  intros Hwf. unfold toggle_play. destruct (playing self).
  - now apply pause_kept.
  - now apply play_kept.
Qed.

End Kept.

Lemma update_progress_step_kept (HAVE_SIMPLEAUDIO : bool) (now now' : Q)
    (is_playing : bool) (self : AudioPlayer) :
  well_formed self ->
  kept self
    (fst (update_progress_step HAVE_SIMPLEAUDIO now now' is_playing self)).
Proof.
  intros Hwf.
  assert (forall s b, well_formed s -> kept s (set_progress_thread b s))
    as Hthread.
  { intros s b Hs. apply kept_of_well_formed; auto.
    eapply well_formed_same; [exact Hs|reflexivity..]. }
  unfold update_progress_step.
  destruct (playing self); cbn [negb]; [|now apply Hthread].
  destruct HAVE_SIMPLEAUDIO; cbn [negb]; [|now apply Hthread].
  destruct (play_obj self) as [handle|]; [|now apply Hthread].
  destruct is_playing; cbn [negb fst].
  - set (cp := start_position self + (now - start_time self)).
    set (s2 := if Qle_bool (total_duration (set_current_position cp self))
                    (current_position (set_current_position cp self))
               then set_playing false
                      (set_current_position
                         (total_duration (set_current_position cp self))
                         (set_current_position cp self))
               else set_current_position cp self).
    assert (kept self s2) as K2.
    { unfold s2. destruct (Qle_bool _ _);
        (apply kept_of_well_formed; auto;
         eapply well_formed_same; [exact Hwf|reflexivity..]). }
    pose proof (set_slider_value_kept true (current_position s2) now' s2
                  (proj1 K2)) as K3.
    destruct (kept_trans _ _ _ K2 K3) as (W & A1 & A2 & A3 & A4).
    apply kept_of_well_formed; auto.
    eapply well_formed_same; [exact W|reflexivity..].
  - apply kept_of_well_formed; auto.
    eapply well_formed_same; [exact Hwf|reflexivity..].
Qed.

Lemma perform_kept (HAVE_SIMPLEAUDIO : bool) (a : action)
    (self : AudioPlayer) :
  well_formed self -> kept self (perform HAVE_SIMPLEAUDIO a self).
Proof.
  intros Hwf. destruct a; cbn [perform].
  - now apply toggle_play_kept.
  - now apply play_kept.
  - now apply pause_kept.
  - now apply stop_kept.
  - now apply set_slider_value_kept.
  - now apply update_progress_step_kept.
Qed.

Lemma perform_all_kept (HAVE_SIMPLEAUDIO : bool) (actions : list action) :
  forall self,
    well_formed self -> kept self (perform_all HAVE_SIMPLEAUDIO actions self).
Proof.
  induction actions as [|a actions IH]; intros self Hwf.
  - now apply kept_refl.
  - cbn [perform_all fold_left].
    pose proof (perform_kept HAVE_SIMPLEAUDIO a self Hwf) as K.
    eapply kept_trans; [exact K|]. apply IH. exact (proj1 K).
Qed.

Lemma update_progress_kept (HAVE_SIMPLEAUDIO : bool)
    (rounds : list (Q * Q * bool)) :
  forall self,
    well_formed self ->
    kept self (update_progress HAVE_SIMPLEAUDIO rounds self).
Proof.
  induction rounds as [|[[now now'] is_playing] rounds IH]; intros self Hwf.
  - now apply kept_refl.
  - cbn [update_progress].
    pose proof (update_progress_step_kept HAVE_SIMPLEAUDIO now now' is_playing
                  self Hwf) as K.
    destruct (update_progress_step HAVE_SIMPLEAUDIO now now' is_playing self)
      as [s' go_on].
    cbn [fst] in K. destruct go_on; [|exact K].
    eapply kept_trans; [exact K|]. apply IH. exact (proj1 K).
Qed.






(** ** The end of the timeline *)

Lemma set_slider_value_not_playing_button (HAVE_SIMPLEAUDIO : bool)
    (v now : Q) (self : AudioPlayer) :
  playing self = false ->
  play_button (set_slider_value HAVE_SIMPLEAUDIO v now self)
  = play_button self.
Proof.
  intros E. unfold set_slider_value.
  destruct (Qeq_bool _ _); [reflexivity|].
  unfold on_position_change.
  cbn [playing set_position_slider]. rewrite E. reflexivity.
Qed.

(** X19. When the elapsed time carries the position to the total duration
    or beyond, the round of the poller puts the current position and the
    slider at the total duration and marks the session as not playing,
    without telling the playback handle to stop and without resetting the
    play button, whose caption stays the one play() gave it; the label shows
    the file the index gives for the total duration; and the next round
    ends the poller thread. *)
Theorem progress_reaches_end (now now' : Q) (next : Q * Q * bool)
    (rest : list (Q * Q * bool)) (self : AudioPlayer) :
  well_formed self ->
  playing self = true ->
  play_obj self <> None ->
  total_duration self <= start_position self + (now - start_time self) ->
  let self' := fst (update_progress_step true now now' true self) in
  playing self' = false
  /\ current_position self' = total_duration self
  /\ Slider.value (position_slider self') == total_duration self
  /\ play_obj self' = play_obj self
  /\ log self' = log self
  /\ play_button self' = play_button self
  /\ file_label self'
     = {| Label.value :=
            "再生中: "
            ++ get_current_file_in (file_positions self)
                 (total_duration self) |}
  /\ update_progress true ((now, now', true) :: next :: rest) self
     = set_progress_thread (Some false) self'.
Proof.
  intros Hwf Hplaying Hobj Hend self'.
  pose proof (seconds_nonneg (combined_audio self)) as Htotal.
  fold (total_duration self) in Htotal.
  set (cp := start_position self + (now - start_time self)) in *.
  set (s2 := set_playing false
               (set_current_position (total_duration self)
                  (set_current_position cp self))).
  assert (well_formed s2) as Hwf2
    by (eapply well_formed_same; [exact Hwf|reflexivity..]).
  assert (playing s2 = false) as Hp2 by reflexivity.
  set (s3 := set_slider_value true (total_duration self) now' s2).
  assert (update_progress_step true now now' true self
          = (set_file_label
               {| Label.value :=
                    "再生中: " ++ get_current_file s3 (current_position s3) |}
               (set_current_file_name
                  (get_current_file s3 (current_position s3)) s3),
             true)) as Hround.
  { unfold update_progress_step. rewrite Hplaying.
    destruct (play_obj self) as [handle|]; [|congruence].
    cbn [negb]. fold cp.
    change (current_position (set_current_position cp self)) with cp.
    change (total_duration (set_current_position cp self))
      with (total_duration self).
    apply Qle_bool_iff in Hend. rewrite Hend. reflexivity. }
  destruct (set_slider_in_range true (total_duration self) now' s2 Hwf2 Htotal)
    as (R1 & R2 & R3); [apply Qle_refl|reflexivity|].
  destruct (set_slider_value_not_playing true (total_duration self) now' s2
              Hp2) as (N1 & N2 & _ & _ & N5).
  pose proof (set_slider_value_not_playing_button true
                (total_duration self) now' s2 Hp2) as N6.
  fold s3 in R1, R2, R3, N1, N2, N5, N6.
  assert (self'
          = set_file_label
              {| Label.value :=
                   "再生中: " ++ get_current_file s3 (current_position s3) |}
              (set_current_file_name
                 (get_current_file s3 (current_position s3)) s3)) as Hself
    by (unfold self'; now rewrite Hround).
  split; [rewrite Hself; exact N1|].
  split; [rewrite Hself; exact R2|].
  split; [rewrite Hself; exact R1|].
  split; [rewrite Hself; exact N2|].
  split; [rewrite Hself; exact N5|].
  split; [rewrite Hself; exact N6|].
  split.
  - rewrite Hself. unfold get_current_file.
    cbn [file_label set_file_label]. now rewrite R2, R3.
  - destruct next as [[n n'] b].
    change (update_progress true ((now, now', true) :: (n, n', b) :: rest)
              self)
      with (let (s, go_on) := update_progress_step true now now' true self in
            if go_on then update_progress true ((n, n', b) :: rest) s else s).
    rewrite Hround. cbv beta iota.
    rewrite update_progress_stops; [now rewrite Hself|exact N1].
Qed.

Lemma progress_reaches_end_witness :
  let self' := fst (update_progress_step true 13 13.01 true playing3) in
  playing self' = false
  /\ current_position self' = total_duration playing3
  /\ Slider.value (position_slider self') == total_duration playing3
  /\ play_obj self' = play_obj playing3
  /\ log self' = log playing3
  /\ play_button self' = play_button playing3
  /\ file_label self'
     = {| Label.value :=
            "再生中: "
            ++ get_current_file_in (file_positions playing3)
                 (total_duration playing3) |}
  /\ update_progress true [(13, 13.01, true); (13.1, 13.11, true)] playing3
     = set_progress_thread (Some false) self'.
Proof.
  apply (progress_reaches_end 13 13.01 (13.1, 13.11, true) [] playing3).
  - constructor; try reflexivity; try split; vm_compute; discriminate.
  - reflexivity.
  - vm_compute. discriminate.
  - vm_compute. discriminate.
Defined.

(** ** __init__ and create_audio_player *)

(** X20. On a folder with at least one WAV file, __init__ prints how many
    files it found and then either raises the decode error of the first
    path, in sorted order, that does not decode, or returns a complete
    player: not playing, without playback handle, at position 0, with the
    slider at 0 in the range from 0 to the total duration, the ready label,
    the merged audio and the index of combine_wav_files on the sorted paths,
    and nothing sent outside yet. create_audio_player gives the same. *)
Theorem init_outcome (listing : list string)
    (from_wav : string -> option AudioSegment) (folder : string)
    (gap_seconds : Z) :
  let wav_files := get_wav_files listing folder in
  let out := [Printed (found_files_msg (List.length wav_files))] in
  wav_files <> [] ->
  match find (unreadable from_wav) wav_files with
  | Some wav_file =>
      __init__ listing from_wav folder gap_seconds
      = (out, Raise (DecodeError wav_file))
      /\ create_audio_player listing from_wav folder gap_seconds
         = (out, Raise (DecodeError wav_file))
  | None =>
      exists player,
        __init__ listing from_wav folder gap_seconds
        = (out, Ok (Complete player))
        /\ create_audio_player listing from_wav folder gap_seconds
           = (out, Ok (Complete player))
        /\ combine_wav_files from_wav wav_files gap_seconds
           = Ok (combined_audio player, file_positions player)
        /\ playing player = false
        /\ play_obj player = None
        /\ current_position player = 0
        /\ position_slider player
           = {| Slider.value := 0; Slider.min := 0;
                Slider.max := total_duration player |}
        /\ file_label player = {| Label.value := ready_msg |}
        /\ log player = []
        /\ well_formed player
  end.
Proof.
  intros wav_files out Hne.
  pose proof (combine_loop_first_unreadable from_wav (last wav_files "")
                gap_seconds (AudioSegment.silent (gap_seconds * 1000))
                wav_files [] 0) as H.
  rewrite <- combine_wav_files_loop in H by assumption.
  unfold create_audio_player, __init__. fold wav_files.
  destruct wav_files as [|f files] eqn:Hfiles; [congruence|].
  fold out.
  destruct (find (unreadable from_wav) (f :: files)) as [g|].
  - rewrite H. split; reflexivity.
  - destruct H as (c & p & ->).
    exists (init_attributes (f :: files) c p).
    repeat (split; [reflexivity|]).
    apply init_attributes_well_formed.
Qed.

Lemma init_outcome_witness :
  exists player,
    __init__ listing3 fs3 "outputs" 3
    = ([Printed (found_files_msg 3)], Ok (Complete player))
    /\ create_audio_player listing3 fs3 "outputs" 3
       = ([Printed (found_files_msg 3)], Ok (Complete player))
    /\ combine_wav_files fs3 (get_wav_files listing3 "outputs") 3
       = Ok (combined_audio player, file_positions player)
    /\ playing player = false
    /\ play_obj player = None
    /\ current_position player = 0
    /\ position_slider player
       = {| Slider.value := 0; Slider.min := 0;
            Slider.max := total_duration player |}
    /\ file_label player = {| Label.value := ready_msg |}
    /\ log player = []
    /\ well_formed player.
Proof.
  apply (init_outcome listing3 fs3 "outputs" 3). discriminate.
Defined.

(** ** A player built from a folder *)

Lemma NoDup_last_once (l : list string) :
  l <> [] -> NoDup l -> ~ In (last l "") (removelast l).
Proof.
  intros Hne Hnd. rewrite (app_removelast_last "" Hne) in Hnd.
  apply NoDup_remove_2 in Hnd. now rewrite app_nil_r in Hnd.
Qed.



Lemma create_audio_player_without_wav_files_witness :
  create_audio_player ["notes.txt"; "cover.png"] fs3 "outputs" 3
  = ([Printed no_files_warning], Raise (AttributeError "play_button")).
Proof.
  apply create_audio_player_without_wav_files. reflexivity.
Defined.
